(** * OpenClaw Mission Control dashboard: the aggregator and the refresh controller

    A shallow embedding of [dashboard/src/App.tsx].  The component keeps four
    fetched collections (agents, heartbeats, performance metrics, alerts) and
    a handful of UI flags in React state, recomputes read-only derived views
    from them with [useMemo], and refreshes the collections from four HTTP
    endpoints on a timer.

    Conventions of the embedding:
    - a TypeScript string-literal union is an inductive type, an interface a
      record (each in a module of its own, so that the fields keep their
      source names: [Agent.id], [Heartbeat.id], ...);
    - [string | null] and [T | undefined] are [option];
    - [Record<AgentType, T>] is the five-field record [TypeRecord T], read and
      written through [get] and [set];
    - a JavaScript [Map<string, T>] that is only ever read with [get] is a
      [gmap string T];
    - array lengths and the counters incremented once per array element are
      [nat] (they stay far below 2^53, where a JavaScript number is exact);
    - the fields of a performance row are IEEE-754 doubles, [float];
    - [forEach] over an array with a mutated accumulator is [fold_left];
    - a block that may throw evaluates to a [Completion], and [try]/[catch]
      is a match on it;
    - the platform's [new Date(string)] and [toLocaleTimeString] are
      parameters of the definitions that call them;
    - the component over time is a machine stepped by events (timer ticks,
      clicks, the settlement of the promises of a started [fetchAll]), each
      run of [fetchAll] carrying the [selectedAgentId] its closure captured. *)

From Stdlib Require Import ZArith List Bool Lia PrimFloat.
From stdpp Require Import gmap strings list fin_maps pretty.
Import ListNotations.

Local Open Scope string_scope.

(** ** Data model (App.tsx, lines 4-43) *)

Module AgentType.
Inductive t : Type := CrewAI | LangGraph | BeeAI | OpenClaw | Admin.
End AgentType.

Module AgentStatus.
Inductive t : Type := online | offline | busy | error.

  (** The test [status === 'online' || status === 'busy'] of [typeHealth]. *)
Definition is_online_or_busy (s : t) : bool :=
    match s with
    | online | busy => true
    | offline | error => false
    end.

  (** The test [status === 'offline' || status === 'error'] of [overdueCount]. *)
Definition is_offline_or_error (s : t) : bool :=
    match s with
    | offline | error => true
    | online | busy => false
    end.
End AgentStatus.

Module Agent.
Record t : Type := {
    id : string;
    name : string;
    type : AgentType.t;
    status : AgentStatus.t;
    last_heartbeat : string;
    current_task_id : option string
  }.
End Agent.

Module Heartbeat.
Record t : Type := {
    id : string;
    agent_id : string;
    timestamp : string;
    status : AgentStatus.t
  }.
End Heartbeat.

Module AlertSeverity.
Inductive t : Type := info | warning | critical.
End AlertSeverity.

Module Alert.
Record t : Type := {
    id : string;
    severity : AlertSeverity.t;
    message : string;
    related_agent_id : option string;
    created_at : string
  }.
End Alert.

Module PerformanceMetric.
Record t : Type := {
    agent_id : string;
    cpu_usage : float;
    memory_usage : float;
    tasks_per_minute : float;
    error_rate_per_hour : float
  }.
End PerformanceMetric.

Inductive MainTab : Type :=
  crons | decisions | signals | costs | performance | architecture.

(** ** [Record<AgentType, T>] *)

Record TypeRecord (T : Type) : Type := {
  CrewAI : T;
  LangGraph : T;
  BeeAI : T;
  OpenClaw : T;
  Admin : T
}.
Arguments CrewAI {T} _.
Arguments LangGraph {T} _.
Arguments BeeAI {T} _.
Arguments OpenClaw {T} _.
Arguments Admin {T} _.

(** [r[k]] *)
Definition get {T} (k : AgentType.t) (r : TypeRecord T) : T :=
  match k with
  | AgentType.CrewAI => CrewAI r
  | AgentType.LangGraph => LangGraph r
  | AgentType.BeeAI => BeeAI r
  | AgentType.OpenClaw => OpenClaw r
  | AgentType.Admin => Admin r
  end.

(** [r[k] = v] *)
Definition set {T} (k : AgentType.t) (v : T) (r : TypeRecord T) : TypeRecord T :=
  match k with
  | AgentType.CrewAI =>
      {| CrewAI := v; LangGraph := LangGraph r; BeeAI := BeeAI r;
         OpenClaw := OpenClaw r; Admin := Admin r |}
  | AgentType.LangGraph =>
      {| CrewAI := CrewAI r; LangGraph := v; BeeAI := BeeAI r;
         OpenClaw := OpenClaw r; Admin := Admin r |}
  | AgentType.BeeAI =>
      {| CrewAI := CrewAI r; LangGraph := LangGraph r; BeeAI := v;
         OpenClaw := OpenClaw r; Admin := Admin r |}
  | AgentType.OpenClaw =>
      {| CrewAI := CrewAI r; LangGraph := LangGraph r; BeeAI := BeeAI r;
         OpenClaw := v; Admin := Admin r |}
  | AgentType.Admin =>
      {| CrewAI := CrewAI r; LangGraph := LangGraph r; BeeAI := BeeAI r;
         OpenClaw := OpenClaw r; Admin := v |}
  end.

(** The object literal with the same value under each of the five keys. *)
Definition every {T} (v : T) : TypeRecord T :=
  {| CrewAI := v; LangGraph := v; BeeAI := v; OpenClaw := v; Admin := v |}.

(** ** Derived views that read only the agents (App.tsx, lines 116-183) *)

(** [agents.find((a) => a.id === selectedAgentId) ?? null]: no string is
    strictly equal to [null], so the search fails when nothing is selected. *)
Definition selectedAgent (agents : list Agent.t) (selectedAgentId : option string)
  : option Agent.t :=
  List.find
    (fun a => match selectedAgentId with
              | Some sel => String.eqb (Agent.id a) sel
              | None => false
              end)
    agents.

Definition overdueCount (agents : list Agent.t) : nat :=
  length (List.filter (fun a => AgentStatus.is_offline_or_error (Agent.status a)) agents).

Definition highPriorityAlertsCount (alerts : list Alert.t) : nat :=
  length
    (List.filter
       (fun a => match Alert.severity a with
                 | AlertSeverity.critical => true
                 | _ => false
                 end)
       alerts).

Definition typeCounts (agents : list Agent.t) : TypeRecord nat :=
  fold_left
    (fun counts a => set (Agent.type a) (get (Agent.type a) counts + 1) counts)
    agents
    (every 0).

Record Health : Type := { online : nat; offline : nat }.

Definition typeHealth (agents : list Agent.t) : TypeRecord Health :=
  let base := {| online := 0; offline := 0 |} in
  fold_left
    (fun health a =>
       let h := get (Agent.type a) health in
       if AgentStatus.is_online_or_busy (Agent.status a)
       then set (Agent.type a) {| online := online h + 1; offline := offline h |} health
       else set (Agent.type a) {| online := online h; offline := offline h + 1 |} health)
    agents
    (every base).

(** ** Counting, as the specification of the derived counters *)

#[global] Instance AgentType_eq_dec : EqDecision AgentType.t.
Proof. solve_decision. Defined.

#[global] Instance AgentStatus_eq_dec : EqDecision AgentStatus.t.
Proof. solve_decision. Defined.

(** The number of elements of [l] on which [p] holds. *)
Fixpoint count_if {A} (p : A -> bool) (l : list A) : nat :=
  match l with
  | [] => 0
  | x :: l' => (if p x then 1 else 0) + count_if p l'
  end.

Definition of_type (t : AgentType.t) (a : Agent.t) : bool :=
  bool_decide (Agent.type a = t).

Definition status_in (ss : list AgentStatus.t) (a : Agent.t) : bool :=
  bool_decide (Agent.status a ∈ ss).

(** The sum of the five entries of a record of counters. *)
Definition total (c : TypeRecord nat) : nat :=
  CrewAI c + LangGraph c + BeeAI c + OpenClaw c + Admin c.

(** The loop of [typeCounts], started from any record of counters. *)
Definition countsFrom (init : TypeRecord nat) (agents : list Agent.t) : TypeRecord nat :=
  fold_left
    (fun counts a => set (Agent.type a) (get (Agent.type a) counts + 1) counts)
    agents init.

(** The loop of [typeHealth], started from any record of health counters. *)
Definition healthFrom (init : TypeRecord Health) (agents : list Agent.t)
  : TypeRecord Health :=
  fold_left
    (fun health a =>
       let h := get (Agent.type a) health in
       if AgentStatus.is_online_or_busy (Agent.status a)
       then set (Agent.type a) {| online := online h + 1; offline := offline h |} health
       else set (Agent.type a) {| online := online h; offline := offline h + 1 |} health)
    agents init.

(** ** The performance index (App.tsx, lines 131-135) *)

(** [new Map()], then [map.set(m.agent_id, m)] for each row in order. *)
Definition perfByAgent (perfMetrics : list PerformanceMetric.t)
  : gmap string PerformanceMetric.t :=
  fold_left
    (fun map m => <[PerformanceMetric.agent_id m := m]> map)
    perfMetrics
    ∅.

(** The same loop, started from any map. *)
Definition perfFrom (init : gmap string PerformanceMetric.t)
    (perfMetrics : list PerformanceMetric.t) : gmap string PerformanceMetric.t :=
  fold_left (fun map m => <[PerformanceMetric.agent_id m := m]> map) perfMetrics init.

(** ** Dates *)

(** A JavaScript [Date] is a time value: a number of milliseconds since the
    epoch, or NaN for an Invalid Date. *)
Module Date.
Inductive t : Type := at_ms (ms : Z) | Invalid.

(** [a > b] on two Dates compares the time values; a comparison with NaN is
    false. *)
Definition gt (a b : t) : bool :=
  match a, b with
  | at_ms x, at_ms y => (y <? x)%Z
  | _, _ => false
  end.

End Date.

(** ** Per-type last activity (App.tsx, lines 185-203) *)

(** [agents.find((a) => a.id === id)] *)
Definition findAgent (agents : list Agent.t) (id : string) : option Agent.t :=
  List.find (fun a => String.eqb (Agent.id a) id) agents.

Section LastActivity.
(** [new Date(s)] for a string [s]: the platform's date parser. *)
Variable Date_parse : string -> Date.t.
(** [d.toLocaleTimeString()] *)
Variable toLocaleTimeString : Date.t -> string.

(** One turn of the [forEach] of [typeLastActivity].  A [Date] object is
    always truthy, so [!current] holds exactly for [null]. *)
Definition lastActivityStep (agents : list Agent.t)
    (last : TypeRecord (option Date.t)) (hb : Heartbeat.t)
  : TypeRecord (option Date.t) :=
  match findAgent agents (Heartbeat.agent_id hb) with
  | None => last
  | Some agent =>
      let ts := Date_parse (Heartbeat.timestamp hb) in
      match get (Agent.type agent) last with
      | None => set (Agent.type agent) (Some ts) last
      | Some current =>
          if Date.gt ts current then set (Agent.type agent) (Some ts) last else last
      end
  end.

Definition typeLastActivity (heartbeats : list Heartbeat.t) (agents : list Agent.t)
  : TypeRecord (option Date.t) :=
  fold_left (lastActivityStep agents) heartbeats (every None).

(** The text after "Last activity:" on a card of the architecture tab. *)
Definition lastActivityText (d : option Date.t) : string :=
  match d with
  | Some d => toLocaleTimeString d
  | None => "—"
  end.
End LastActivity.

(** The heartbeats whose agent identifier resolves, by lookup in [agents], to
    an agent of type [t]. *)
Definition heartbeatsOfType (t : AgentType.t) (agents : list Agent.t)
    (heartbeats : list Heartbeat.t) : list Heartbeat.t :=
  List.filter
    (fun hb =>
       match findAgent agents (Heartbeat.agent_id hb) with
       | Some a => bool_decide (Agent.type a = t)
       | None => false
       end)
    heartbeats.

(** What one heartbeat of an agent of some type does to the entry of that
    type: the assignment under [if (!current || ts > current)]. *)
Definition later (current : option Date.t) (ts : Date.t) : option Date.t :=
  match current with
  | None => Some ts
  | Some c => if Date.gt ts c then Some ts else Some c
  end.

(** The dates of the heartbeats of [heartbeatsOfType]. *)
Definition datesOfType (Date_parse : string -> Date.t) (t : AgentType.t)
    (agents : list Agent.t) (heartbeats : list Heartbeat.t) : list Date.t :=
  map (fun hb => Date_parse (Heartbeat.timestamp hb)) (heartbeatsOfType t agents heartbeats).

(** ** React state of the component (App.tsx, lines 60-70) *)

Record State : Type := {
  agents : list Agent.t;
  heartbeats : list Heartbeat.t;
  perfMetrics : list PerformanceMetric.t;
  alerts : list Alert.t;
  loading : bool;
  error : option string;
  selectedAgentId : option string;
  activeTab : MainTab;
  lastUpdated : option Date.t;
  showAlertsPanel : bool;
  refreshSeconds : Z
}.

(** The arguments of the [useState] calls. *)
Definition initialState : State :=
  {| agents := []; heartbeats := []; perfMetrics := []; alerts := [];
     loading := true; error := None; selectedAgentId := None;
     activeTab := crons; lastUpdated := None; showAlertsPanel := false;
     refreshSeconds := 15 |}.

Definition setAgents (v : list Agent.t) (st : State) : State :=
  {| agents := v; heartbeats := heartbeats st; perfMetrics := perfMetrics st;
     alerts := alerts st; loading := loading st; error := error st;
     selectedAgentId := selectedAgentId st; activeTab := activeTab st;
     lastUpdated := lastUpdated st; showAlertsPanel := showAlertsPanel st;
     refreshSeconds := refreshSeconds st |}.

Definition setHeartbeats (v : list Heartbeat.t) (st : State) : State :=
  {| agents := agents st; heartbeats := v; perfMetrics := perfMetrics st;
     alerts := alerts st; loading := loading st; error := error st;
     selectedAgentId := selectedAgentId st; activeTab := activeTab st;
     lastUpdated := lastUpdated st; showAlertsPanel := showAlertsPanel st;
     refreshSeconds := refreshSeconds st |}.

Definition setPerfMetrics (v : list PerformanceMetric.t) (st : State) : State :=
  {| agents := agents st; heartbeats := heartbeats st; perfMetrics := v;
     alerts := alerts st; loading := loading st; error := error st;
     selectedAgentId := selectedAgentId st; activeTab := activeTab st;
     lastUpdated := lastUpdated st; showAlertsPanel := showAlertsPanel st;
     refreshSeconds := refreshSeconds st |}.

Definition setAlerts (v : list Alert.t) (st : State) : State :=
  {| agents := agents st; heartbeats := heartbeats st; perfMetrics := perfMetrics st;
     alerts := v; loading := loading st; error := error st;
     selectedAgentId := selectedAgentId st; activeTab := activeTab st;
     lastUpdated := lastUpdated st; showAlertsPanel := showAlertsPanel st;
     refreshSeconds := refreshSeconds st |}.

Definition setLoading (v : bool) (st : State) : State :=
  {| agents := agents st; heartbeats := heartbeats st; perfMetrics := perfMetrics st;
     alerts := alerts st; loading := v; error := error st;
     selectedAgentId := selectedAgentId st; activeTab := activeTab st;
     lastUpdated := lastUpdated st; showAlertsPanel := showAlertsPanel st;
     refreshSeconds := refreshSeconds st |}.

Definition setError (v : option string) (st : State) : State :=
  {| agents := agents st; heartbeats := heartbeats st; perfMetrics := perfMetrics st;
     alerts := alerts st; loading := loading st; error := v;
     selectedAgentId := selectedAgentId st; activeTab := activeTab st;
     lastUpdated := lastUpdated st; showAlertsPanel := showAlertsPanel st;
     refreshSeconds := refreshSeconds st |}.

Definition setSelectedAgentId (v : option string) (st : State) : State :=
  {| agents := agents st; heartbeats := heartbeats st; perfMetrics := perfMetrics st;
     alerts := alerts st; loading := loading st; error := error st;
     selectedAgentId := v; activeTab := activeTab st;
     lastUpdated := lastUpdated st; showAlertsPanel := showAlertsPanel st;
     refreshSeconds := refreshSeconds st |}.

Definition setActiveTab (v : MainTab) (st : State) : State :=
  {| agents := agents st; heartbeats := heartbeats st; perfMetrics := perfMetrics st;
     alerts := alerts st; loading := loading st; error := error st;
     selectedAgentId := selectedAgentId st; activeTab := v;
     lastUpdated := lastUpdated st; showAlertsPanel := showAlertsPanel st;
     refreshSeconds := refreshSeconds st |}.

Definition setLastUpdated (v : option Date.t) (st : State) : State :=
  {| agents := agents st; heartbeats := heartbeats st; perfMetrics := perfMetrics st;
     alerts := alerts st; loading := loading st; error := error st;
     selectedAgentId := selectedAgentId st; activeTab := activeTab st;
     lastUpdated := v; showAlertsPanel := showAlertsPanel st;
     refreshSeconds := refreshSeconds st |}.

Definition setShowAlertsPanel (v : bool) (st : State) : State :=
  {| agents := agents st; heartbeats := heartbeats st; perfMetrics := perfMetrics st;
     alerts := alerts st; loading := loading st; error := error st;
     selectedAgentId := selectedAgentId st; activeTab := activeTab st;
     lastUpdated := lastUpdated st; showAlertsPanel := v;
     refreshSeconds := refreshSeconds st |}.

Definition setRefreshSeconds (v : Z) (st : State) : State :=
  {| agents := agents st; heartbeats := heartbeats st; perfMetrics := perfMetrics st;
     alerts := alerts st; loading := loading st; error := error st;
     selectedAgentId := selectedAgentId st; activeTab := activeTab st;
     lastUpdated := lastUpdated st; showAlertsPanel := showAlertsPanel st;
     refreshSeconds := v |}.

(** JavaScript truthiness of a [string | null]: [null] and the empty string
    are falsy, every other string is truthy. *)
Definition truthy (s : option string) : bool :=
  match s with
  | Some s => negb (String.eqb s "")
  | None => false
  end.

(** ** What the four fetches of a cycle deliver *)

(** A thrown value: an [Error] with its message, or anything else. *)
Inductive Thrown : Type :=
| an_Error (message : string)
| not_an_Error.

(** [err instanceof Error ? err.message : 'Unknown error loading data'] *)
Definition errorMessage (err : Thrown) : string :=
  match err with
  | an_Error message => message
  | not_an_Error => "Unknown error loading data"
  end.

(** The result of evaluating a block: a value, or a thrown value that
    unwinds to the enclosing [catch]. *)
Inductive Completion (A : Type) : Type :=
| normal (v : A)
| throw (e : Thrown).
Arguments normal {A} v.
Arguments throw {A} e.

Definition bind {A B} (c : Completion A) (k : A -> Completion B) : Completion B :=
  match c with
  | normal v => k v
  | throw e => throw e
  end.

Notation "x <- c ;; k" := (bind c (fun x => k))
  (at level 100, c at next level, right associativity).
Notation "c ;;; k" := (bind c (fun _ => k))
  (at level 100, right associativity).

(** A [Response]: its status, and what [await res.json()] gives (the body
    cast to the expected array type, or the parser's exception). *)
Record Response (A : Type) : Type := {
  status : N;
  json : Completion A
}.
Arguments status {A} _.
Arguments json {A} _.

(** [res.ok]: the status is in the range 200-299. *)
Definition ok {A} (res : Response A) : bool :=
  (200 <=? status res)%N && (status res <=? 299)%N.

(** A settled [fetch] promise.  A rejection (a network or transport failure)
    carries the instant at which it happened: [Promise.all] rejects with the
    reason of the promise that rejects first, and what the other promises do
    after that instant is of no consequence. *)
Inductive Settled (A : Type) : Type :=
| fulfilled (res : Response A)
| rejected (at_instant : nat) (reason : Thrown).
Arguments fulfilled {A} res.
Arguments rejected {A} at_instant reason.

(** The four promises of one run of [fetchAll], in the order of the array
    given to [Promise.all]. *)
Record Cycle : Type := {
  fetch_agents : Settled (list Agent.t);
  fetch_heartbeats : Settled (list Heartbeat.t);
  fetch_performance : Settled (list PerformanceMetric.t);
  fetch_alerts : Settled (list Alert.t)
}.

Definition rejection {A} (p : Settled A) : list (nat * Thrown) :=
  match p with
  | fulfilled _ => []
  | rejected t e => [(t, e)]
  end.

(** The rejections of a cycle, in array order. *)
Definition rejections (c : Cycle) : list (nat * Thrown) :=
  (rejection (fetch_agents c) ++ rejection (fetch_heartbeats c)
   ++ rejection (fetch_performance c) ++ rejection (fetch_alerts c))%list.

(** The earliest of a list of rejections; of two at the same instant, the
    one earlier in the list. *)
Fixpoint earliest (first : nat * Thrown) (rest : list (nat * Thrown)) : nat * Thrown :=
  match rest with
  | [] => first
  | r :: rest' => earliest (if (fst r <? fst first)%nat then r else first) rest'
  end.

(** The array destructured into [[agentsRes, hbRes, perfRes, alertsRes]]. *)
Record Responses : Type := {
  agentsRes : Response (list Agent.t);
  hbRes : Response (list Heartbeat.t);
  perfRes : Response (list PerformanceMetric.t);
  alertsRes : Response (list Alert.t)
}.

(** [await Promise.all([...])]: the four responses when every promise is
    fulfilled, otherwise the reason of the first rejection. *)
Definition Promise_all (c : Cycle) : Completion Responses :=
  match rejections c with
  | r :: rest => throw (snd (earliest r rest))
  | [] =>
      match fetch_agents c, fetch_heartbeats c, fetch_performance c, fetch_alerts c with
      | fulfilled a, fulfilled h, fulfilled p, fulfilled l =>
          normal {| agentsRes := a; hbRes := h; perfRes := p; alertsRes := l |}
      | _, _, _, _ => throw not_an_Error (* no such case: nothing was rejected *)
      end
  end.

(** The template literal [`Failed to load ${what}: ${res.status}`]. *)
Definition failureMessage (what : string) (status : N) : string :=
  "Failed to load " ++ what ++ ": " ++ pretty status.

(** [if (!res.ok) throw new Error(`Failed to load ${what}: ${res.status}`)] *)
Definition check_ok {A} (what : string) (res : Response A) : Completion unit :=
  if negb (ok res) then throw (an_Error (failureMessage what (status res)))
  else normal tt.

(** The four arrays read from the responses. *)
Record Payload : Type := {
  agentsData : list Agent.t;
  hbData : list Heartbeat.t;
  perfData : list PerformanceMetric.t;
  alertsData : list Alert.t
}.

(** The part of the [try] block of [fetchAll] that precedes the first state
    setter (App.tsx, lines 76-91). *)
Definition fetched (c : Cycle) : Completion Payload :=
  all <- Promise_all c ;;
  check_ok "agents" (agentsRes all) ;;;
  check_ok "heartbeats" (hbRes all) ;;;
  check_ok "performance metrics" (perfRes all) ;;;
  check_ok "alerts" (alertsRes all) ;;;
  agentsData <- json (agentsRes all) ;;
  hbData <- json (hbRes all) ;;
  perfData <- json (perfRes all) ;;
  alertsData <- json (alertsRes all) ;;
  normal {| agentsData := agentsData; hbData := hbData;
            perfData := perfData; alertsData := alertsData |}.

(** The state setters of the [try] block (App.tsx, lines 93-101).
    [selectedAgentId] is the variable of the closure: the value the state had
    in the render whose effect created this [fetchAll]. *)
Definition applyPayload (selectedAgentId : option string) (now : Date.t)
    (d : Payload) (st : State) : State :=
  let st := setAgents (agentsData d) st in
  let st := setHeartbeats (hbData d) st in
  let st := setPerfMetrics (perfData d) st in
  let st := setAlerts (alertsData d) st in
  let st := setError None st in
  let st := setLastUpdated (Some now) st in
  if negb (truthy selectedAgentId) && (0 <? length (agentsData d))%nat
  then setSelectedAgentId (Agent.id <$> head (agentsData d)) st
  else st.

(** [fetchAll] from the point where its awaited promises have settled: the
    rest of the [try] block, or the [catch] block, and then [finally]. *)
Definition fetchAll_settled (selectedAgentId : option string) (now : Date.t)
    (c : Cycle) (st : State) : State :=
  let st :=
    match fetched c with
    | normal d => applyPayload selectedAgentId now d st
    | throw err => setError (Some (errorMessage err)) st
    end in
  setLoading false st.

(** ** What is rendered (App.tsx, lines 228-715)

    The elements of the tree whose presence depends on [loading], [error] and
    the selection; the bodies of the tabs are not part of the model. *)

(** The right column below the alerts panel. *)
Inductive DetailPane : Type :=
| detail_pane (agent : Agent.t) (perf : option PerformanceMetric.t)
| detail_empty.

(** [selectedAgent ? <div className="detail-pane">...</div>
                   : <div className="detail-empty">...</div>] *)
Definition detailPane (agents : list Agent.t) (perfMetrics : list PerformanceMetric.t)
    (selectedAgentId : option string) : DetailPane :=
  match selectedAgent agents selectedAgentId with
  | Some agent => detail_pane agent (perfByAgent perfMetrics !! Agent.id agent)
  | None => detail_empty
  end.

(** [<div className="columns">]: the agent cards, each with its
    [agent-card--active] flag, the alerts panel, the detail pane. *)
Record Columns : Type := {
  agent_list : list (Agent.t * bool);
  alerts_panel : option (list Alert.t);
  detail : DetailPane
}.

Record View : Type := {
  top_summary : nat * nat;
  alert_strip : option (nat * nat);
  loading_banner : bool;
  error_banner : option string;
  columns : option Columns
}.

Definition render (st : State) : View :=
  let shown := negb (loading st) && negb (truthy (error st)) in
  {| top_summary := (overdueCount (agents st), length (agents st));
     alert_strip :=
       if shown
       then Some (overdueCount (agents st), highPriorityAlertsCount (alerts st))
       else None;
     loading_banner := loading st;
     error_banner :=
       if truthy (error st) && negb (loading st) then error st else None;
     columns :=
       if shown
       then Some
         {| agent_list :=
              map (fun agent =>
                     (agent,
                      match selectedAgentId st with
                      | Some sel => String.eqb (Agent.id agent) sel
                      | None => false
                      end))
                  (agents st);
            alerts_panel :=
              if showAlertsPanel st && (0 <? length (alerts st))%nat
              then Some (alerts st) else None;
            detail := detailPane (agents st) (perfMetrics st) (selectedAgentId st) |}
       else None |}.

(** ** The component over time

    Everything runs on one thread.  A run of [fetchAll] is split by its
    [await] into a start, which sets [loading], and a settlement, which may
    come after any number of other events.  Nothing cancels a run that has
    started: clearing the interval only stops further ticks. *)

Record Machine : Type := {
  ui : State;
  (** the runs of [fetchAll] that wait for their promises, each with the
      [selectedAgentId] its closure captured *)
  inflight : gmap nat (option string);
  (** the number of runs started so far; run [n] is the [n]-th one *)
  started : nat
}.

(** A call of [fetchAll] up to its [await].  The closure of the current
    effect holds the current [selectedAgentId]: the effect is re-created
    whenever that state changes. *)
Definition startCycle (m : Machine) : Machine :=
  {| ui := setLoading true (ui m);
     inflight := <[started m := selectedAgentId (ui m)]> (inflight m);
     started := S (started m) |}.

(** The component after its first render: the effect has run once. *)
Definition mounted : Machine :=
  startCycle {| ui := initialState; inflight := ∅; started := 0 |}.

Inductive Event : Type :=
| tick                                         (* the interval fires *)
| settle (run : nat) (now : Date.t) (c : Cycle) (* the promises of a run settle *)
| clickAgent (id : string)                     (* [setSelectedAgentId(agent.id)] *)
| changeRefresh (value : Z)                    (* the [select] of the top bar *)
| clickTab (tab : MainTab)
| clickAlertStrip.

(** A state update followed by the re-render: the effect runs again, and so
    calls [fetchAll], when [selectedAgentId] or [refreshSeconds] changed. *)
Definition commit (m : Machine) (st : State) (inflight' : gmap nat (option string))
  : Machine :=
  let m' := {| ui := st; inflight := inflight'; started := started m |} in
  if bool_decide (selectedAgentId st = selectedAgentId (ui m)
                  /\ refreshSeconds st = refreshSeconds (ui m))
  then m' else startCycle m'.

Definition step (m : Machine) (e : Event) : Machine :=
  match e with
  | tick => startCycle m
  | settle run now c =>
      match inflight m !! run with
      | Some captured =>
          commit m (fetchAll_settled captured now c (ui m)) (delete run (inflight m))
      | None => m
      end
  | clickAgent id => commit m (setSelectedAgentId (Some id) (ui m)) (inflight m)
  | changeRefresh value =>
      (* [setRefreshSeconds(Number(e.target.value) || 15)] *)
      commit m (setRefreshSeconds (if (value =? 0)%Z then 15%Z else value) (ui m))
             (inflight m)
  | clickTab tab => commit m (setActiveTab tab (ui m)) (inflight m)
  | clickAlertStrip =>
      commit m (setShowAlertsPanel (negb (showAlertsPanel (ui m))) (ui m)) (inflight m)
  end.

Definition run (m : Machine) (events : list Event) : Machine :=
  fold_left step events m.

(** Every run that still waits was started: its number is below [started]. *)
Definition waiting_started (m : Machine) : Prop :=
  forall r, is_Some (inflight m !! r) -> r < started m.

(** The four collections of a state. *)
Definition snapshot (st : State) : Payload :=
  {| agentsData := agents st; hbData := heartbeats st;
     perfData := perfMetrics st; alertsData := alerts st |}.


(** ** Sample data

    The three agents of the scenario of the specification (A: CrewAI and
    online, B: LangGraph and error, C: BeeAI and offline), an agent whose
    identifier is the empty string, and responses that carry them. *)

Definition agentA : Agent.t :=
  {| Agent.id := "a1"; Agent.name := "A"; Agent.type := AgentType.CrewAI;
     Agent.status := AgentStatus.online;
     Agent.last_heartbeat := "1970-01-01T00:00:01.000Z";
     Agent.current_task_id := None |}.

Definition agentB : Agent.t :=
  {| Agent.id := "b2"; Agent.name := "B"; Agent.type := AgentType.LangGraph;
     Agent.status := AgentStatus.error;
     Agent.last_heartbeat := "1970-01-01T00:00:02.000Z";
     Agent.current_task_id := Some "task-7" |}.

Definition agentC : Agent.t :=
  {| Agent.id := "c3"; Agent.name := "C"; Agent.type := AgentType.BeeAI;
     Agent.status := AgentStatus.offline;
     Agent.last_heartbeat := "1970-01-01T00:00:03.000Z";
     Agent.current_task_id := None |}.

Definition agentNoId : Agent.t :=
  {| Agent.id := ""; Agent.name := "N"; Agent.type := AgentType.Admin;
     Agent.status := AgentStatus.busy;
     Agent.last_heartbeat := "1970-01-01T00:00:01.000Z";
     Agent.current_task_id := None |}.

Definition heartbeatsABX : list Heartbeat.t :=
  [ {| Heartbeat.id := "h1"; Heartbeat.agent_id := "a1";
       Heartbeat.timestamp := "1970-01-01T00:00:02.000Z";
       Heartbeat.status := AgentStatus.online |};
    {| Heartbeat.id := "h2"; Heartbeat.agent_id := "b2";
       Heartbeat.timestamp := "1970-01-01T00:00:01.000Z";
       Heartbeat.status := AgentStatus.error |};
    {| Heartbeat.id := "h3"; Heartbeat.agent_id := "a1";
       Heartbeat.timestamp := "1970-01-01T00:00:03.000Z";
       Heartbeat.status := AgentStatus.online |};
    {| Heartbeat.id := "h4"; Heartbeat.agent_id := "gone";
       Heartbeat.timestamp := "1970-01-01T00:00:09.000Z";
       Heartbeat.status := AgentStatus.busy |};
    {| Heartbeat.id := "h5"; Heartbeat.agent_id := "a1";
       Heartbeat.timestamp := "1970-01-01T00:00:01.000Z";
       Heartbeat.status := AgentStatus.online |} ].

(** What [new Date] gives on the timestamps of the sample data. *)
Definition sampleDate (s : string) : Date.t :=
  if String.eqb s "1970-01-01T00:00:01.000Z" then Date.at_ms 1000
  else if String.eqb s "1970-01-01T00:00:02.000Z" then Date.at_ms 2000
  else if String.eqb s "1970-01-01T00:00:03.000Z" then Date.at_ms 3000
  else if String.eqb s "1970-01-01T00:00:09.000Z" then Date.at_ms 9000
  else Date.Invalid.

(** A stand-in for [toLocaleTimeString]: the time value in decimal. *)
Definition sampleTime (d : Date.t) : string :=
  match d with
  | Date.at_ms ms => pretty ms
  | Date.Invalid => "Invalid Date"
  end.

Definition perfRow (agent_id : string) (cpu : float) : PerformanceMetric.t :=
  {| PerformanceMetric.agent_id := agent_id;
     PerformanceMetric.cpu_usage := cpu;
     PerformanceMetric.memory_usage := 40.5%float;
     PerformanceMetric.tasks_per_minute := 1.25%float;
     PerformanceMetric.error_rate_per_hour := 0%float |}.

(** A response with the given status whose body parses to [data]. *)
Definition respond {A} (status : N) (data : A) : Settled A :=
  fulfilled {| status := status; json := normal data |}.

(** A cycle whose first three fetches succeed with [agents] and empty
    collections, and whose fetch of the alerts is [last]. *)
Definition cycleOf (agents : list Agent.t) (last : Settled (list Alert.t)) : Cycle :=
  {| fetch_agents := respond 200 agents;
     fetch_heartbeats := respond 200 [];
     fetch_performance := respond 200 [];
     fetch_alerts := last |}.

(** The state after a first successful refresh that delivered [agentA] and
    [agentB]: the snapshot is on screen and [agentA] is selected. *)
Definition displayed : State :=
  fetchAll_settled None (Date.at_ms 1000) (cycleOf [agentA; agentB] (respond 200 []))
    initialState.

(** The first refresh delivers [agentA] and [agentNoId] and selects the first;
    the run which that selection starts is answered too, the columns appear,
    and the card of [agentNoId] is clicked. *)
Definition noIdTrace : list Event :=
  [ settle 0 (Date.at_ms 1000) (cycleOf [agentA; agentNoId] (respond 200 []));
    settle 1 (Date.at_ms 2000) (cycleOf [agentA; agentNoId] (respond 200 []));
    clickAgent "" ].

Definition noIdClicked : Machine := run mounted noIdTrace.

(** The interval fired while the first run was still waiting, and the second
    run was answered first, with [agentB]. *)
Definition overlapped : Machine :=
  run mounted [ tick; settle 1 (Date.at_ms 2000) (cycleOf [agentB] (respond 200 [])) ].

(** ** The rest of the component *)

(** [statusColor] (App.tsx, lines 45-57). *)
Definition statusColor (status : AgentStatus.t) : string :=
  match status with
  | AgentStatus.online => "#22c55e"
  | AgentStatus.busy => "#facc15"
  | AgentStatus.error => "#f97373"
  | AgentStatus.offline => "#6b7280"
  end.

(** A row of [decisions] (App.tsx, lines 137-147). *)
Module Decision.
Record t : Type := {
  id : string;
  agent : Agent.t;
  title : string;
  age : string;
  priority : string
}.
End Decision.

(** A row of [signals] (App.tsx, lines 205-215). *)
Module Signal.
Record t : Type := {
  id : string;
  agent : Agent.t;
  label : string;
  time : string;
  type : AgentType.t
}.
End Signal.

(** [agents.map((agent, index) => ({ ... }))].  The memoised arrays
    [decisions] and [signals] live in a module: the tabs of [MainTab] bear the
    same names. *)
Module Rows.
Definition decisions (agents : list Agent.t) : list Decision.t :=
  imap
    (fun index agent =>
       {| Decision.id := "decision-" ++ Agent.id agent;
          Decision.agent := agent;
          Decision.title := "Pending decision #" ++ pretty (index + 1);
          Decision.age := pretty (5 + index * 3) ++ "h ago";
          Decision.priority := if (index mod 2 =? 0)%nat then "High" else "Normal" |})
    agents.

Definition signals (agents : list Agent.t) : list Signal.t :=
  imap
    (fun index agent =>
       {| Signal.id := "signal-" ++ Agent.id agent;
          Signal.agent := agent;
          Signal.label := Agent.name agent ++ " activity ping";
          Signal.time := pretty (2 + index) ++ "h ago";
          Signal.type := Agent.type agent |})
    agents.
End Rows.

(** A row of the table of the crons tab (App.tsx, lines 357-380): the
    heartbeat, the agent it resolves to, and the [row--active] flag.  The
    cells are read from the first two. *)
Record CronRow : Type := {
  cron_heartbeat : Heartbeat.t;
  cron_agent : Agent.t;
  cron_isSelected : bool
}.

(** [heartbeats.map((hb) => { ...; if (!agent) return null; ... })]: React
    renders nothing for [null]. *)
Definition cronRows (heartbeats : list Heartbeat.t) (agents : list Agent.t)
    (selectedAgentId : option string) : list CronRow :=
  omap
    (fun hb =>
       match findAgent agents (Heartbeat.agent_id hb) with
       | None => None
       | Some agent =>
           Some {| cron_heartbeat := hb;
                   cron_agent := agent;
                   cron_isSelected :=
                     match selectedAgentId with
                     | Some sel => String.eqb (Agent.id agent) sel
                     | None => false
                     end |}
       end)
    heartbeats.

(** The rows of the table of the performance tab (App.tsx, lines 472-488):
    the agent, its row of the index, and the [row--active] flag. *)
Definition perfRows (agents : list Agent.t) (perfMetrics : list PerformanceMetric.t)
    (selectedAgentId : option string) : list (Agent.t * PerformanceMetric.t * bool) :=
  omap
    (fun agent =>
       match perfByAgent perfMetrics !! Agent.id agent with
       | None => None
       | Some perf =>
           Some (agent, perf,
                 match selectedAgentId with
                 | Some sel => String.eqb (Agent.id agent) sel
                 | None => false
                 end)
       end)
    agents.

(** [a.related_agent_id ? agents.find((ag) => ag.id === a.related_agent_id)
                         : undefined] (App.tsx, lines 618-620). *)
Definition alertAgent (agents : list Agent.t) (a : Alert.t) : option Agent.t :=
  if truthy (Alert.related_agent_id a)
  then match Alert.related_agent_id a with
       | Some id => findAgent agents id
       | None => None
       end
  else None.

(** The [onClick] of a row of the alerts panel (App.tsx, lines 625-627):
    [if (agent) setSelectedAgentId(agent.id)], the update that a click on the
    card of that agent makes. *)
Definition clickAlertRow (m : Machine) (a : Alert.t) : Machine :=
  match alertAgent (agents (ui m)) a with
  | Some agent => step m (clickAgent (Agent.id agent))
  | None => m
  end.

(** The events other than the settlement of a run. *)
Definition is_settle (e : Event) : bool :=
  match e with
  | settle _ _ _ => true
  | _ => false
  end.

(** The pointwise sum of the offline counters of a record of health
    counters, and of the online ones. *)
Definition totalOffline (h : TypeRecord Health) : nat :=
  offline (CrewAI h) + offline (LangGraph h) + offline (BeeAI h)
  + offline (OpenClaw h) + offline (Admin h).

Definition totalOnline (h : TypeRecord Health) : nat :=
  online (CrewAI h) + online (LangGraph h) + online (BeeAI h)
  + online (OpenClaw h) + online (Admin h).

#[global] Instance AlertSeverity_eq_dec : EqDecision AlertSeverity.t.
Proof. solve_decision. Defined.

(** ** What a lookup denotes, and which events the screen offers *)

(** [a] is the first agent of [agents], in the order of the array, whose
    identifier is [id]: what [agents.find((a) => a.id === id)] is to return. *)
Definition resolves (agents : list Agent.t) (id : string) (a : Agent.t) : Prop :=
  exists before after,
    agents = (before ++ a :: after)%list
    /\ Agent.id a = id
    /\ Forall (fun b => Agent.id b <> id) before.

(** The agent identifier of the heartbeat resolves to an agent of type [t]. *)
Definition resolvesToType (agents : list Agent.t) (t : AgentType.t)
    (hb : Heartbeat.t) : Prop :=
  exists a, resolves agents (Heartbeat.agent_id hb) a /\ Agent.type a = t.

(** Whether an event can happen in a state of the component: the interval
    and the [select] of the top bar are always there; a run settles only
    while it waits; the agent cards, the rows and the tabs are rendered only
    inside the columns (App.tsx, line 274), the alert strip only with them
    (line 258); and a click selects an identifier that an agent of the state
    carries (lines 286, 365, 399, 425, 450, 479). *)
Definition offered (m : Machine) (e : Event) : bool :=
  match e with
  | tick => true
  | settle r _ _ => bool_decide (is_Some (inflight m !! r))
  | clickAgent id =>
      match columns (render (ui m)) with
      | Some cols => existsb (fun card => String.eqb (Agent.id (fst card)) id) (agent_list cols)
      | None => false
      end
  | changeRefresh _ => true
  | clickTab _ => bool_decide (is_Some (columns (render (ui m))))
  | clickAlertStrip => bool_decide (is_Some (alert_strip (render (ui m))))
  end.

(** Every event of the sequence is offered by the state it happens in. *)
Fixpoint feasible (m : Machine) (events : list Event) : bool :=
  match events with
  | [] => true
  | e :: rest => offered m e && feasible (step m e) rest
  end.

(** The interval fires while the first run still waits; the second run is
    answered with [agentA] and [agentB], which selects [agentA] and starts a
    third run; that one is answered, the columns appear, and the card of
    [agentB] is clicked, which starts a fourth run; that one is answered
    too.  The first run, which read a null selection, still waits. *)
Definition lateTrace : list Event :=
  [ tick;
    settle 1 (Date.at_ms 1000) (cycleOf [agentA; agentB] (respond 200 []));
    settle 2 (Date.at_ms 2000) (cycleOf [agentA; agentB] (respond 200 []));
    clickAgent "b2";
    settle 3 (Date.at_ms 3000) (cycleOf [agentA; agentB] (respond 200 [])) ].

Definition lateAnswer : Machine := run mounted lateTrace.

(** The heartbeats of the sample data, preceded by one of [agentA] whose
    timestamp does not parse. *)
Definition heartbeatsUnparsed : list Heartbeat.t :=
  {| Heartbeat.id := "h0"; Heartbeat.agent_id := "a1";
     Heartbeat.timestamp := "yesterday";
     Heartbeat.status := AgentStatus.online |} :: heartbeatsABX.

(** * Properties *)

(** ** Lemmas on [TypeRecord] *)

Section TypeRecordFacts.
Context {T : Type}.
Implicit Types (k : AgentType.t) (v : T) (r : TypeRecord T).

Lemma get_set_same k v r : get k (set k v r) = v.
Proof. by destruct k. Qed.

Lemma get_set_other k k' v r : k ≠ k' -> get k' (set k v r) = get k' r.
Proof. by destruct k, k'. Qed.

Lemma get_set k k' v r :
    get k' (set k v r) = if decide (k = k') then v else get k' r.
Proof.
    case_decide as E; [subst; apply get_set_same | by apply get_set_other].
  Qed.

Lemma get_every k v : get k (every v) = v.
Proof. by destruct k. Qed.
End TypeRecordFacts.


Lemma total_set_succ k (c : TypeRecord nat) :
  total (set k (get k c + 1) c) = total c + 1.
Proof. destruct k; unfold total; simpl; lia. Qed.

Lemma count_if_le {A} (p : A -> bool) l : count_if p l <= length l.
Proof. induction l as [|x l IH]; simpl; [lia | destruct (p x); lia]. Qed.

Lemma count_if_filter {A} (p : A -> bool) l :
  length (List.filter p l) = count_if p l.
Proof. induction l as [|x l IH]; simpl; [done | destruct (p x); simpl; lia]. Qed.

Lemma count_if_ext {A} (p q : A -> bool) l :
  (forall x, p x = q x) -> count_if p l = count_if q l.
Proof. intros E. induction l as [|x l IH]; simpl; [done | by rewrite E, IH]. Qed.

Lemma count_if_split {A} (p q : A -> bool) l :
  count_if p l = count_if (fun x => p x && q x) l + count_if (fun x => p x && negb (q x)) l.
Proof.
  induction l as [|x l IH]; simpl; [done |].
  rewrite IH. destruct (p x), (q x); simpl; lia.
Qed.

Lemma is_offline_or_error_spec s :
  AgentStatus.is_offline_or_error s
  = bool_decide (s ∈ [AgentStatus.offline; AgentStatus.error]).
Proof. by destruct s. Qed.

Lemma is_online_or_busy_spec s :
  AgentStatus.is_online_or_busy s
  = bool_decide (s ∈ [AgentStatus.online; AgentStatus.busy]).
Proof. by destruct s. Qed.

Lemma online_or_busy_negb s :
  AgentStatus.is_online_or_busy s = negb (AgentStatus.is_offline_or_error s).
Proof. by destruct s. Qed.

(** *** [typeCounts] *)


Lemma countsFrom_get t agents : forall init,
  get t (countsFrom init agents) = get t init + count_if (of_type t) agents.
Proof.
  induction agents as [|a agents IH]; intros init; simpl; [lia |].
  unfold countsFrom in *; simpl. rewrite IH, get_set. unfold of_type.
  case_decide as E; [subst; rewrite bool_decide_eq_true_2 by done; lia |].
  rewrite bool_decide_eq_false_2 by done. lia.
Qed.

Lemma countsFrom_total agents : forall init,
  total (countsFrom init agents) = total init + length agents.
Proof.
  induction agents as [|a agents IH]; intros init; simpl; [lia |].
  unfold countsFrom in *; simpl. rewrite IH, total_set_succ. lia.
Qed.

Lemma typeCounts_get t agents :
  get t (typeCounts agents) = count_if (of_type t) agents.
Proof.
  change (typeCounts agents) with (countsFrom (every 0) agents).
  by rewrite countsFrom_get, get_every.
Qed.

(** C8: the five per-type counts add up to the number of agents. *)
Theorem typeCounts_sum (agents : list Agent.t) :
  CrewAI (typeCounts agents) + LangGraph (typeCounts agents)
  + BeeAI (typeCounts agents) + OpenClaw (typeCounts agents)
  + Admin (typeCounts agents)
  = length agents.
Proof.
  change (typeCounts agents) with (countsFrom (every 0) agents).
  pose proof (countsFrom_total agents (every 0)) as H.
  unfold total in H. simpl in H. lia.
Qed.

(** *** [typeHealth] *)

Lemma healthFrom_get t agents : forall init,
  online (get t (healthFrom init agents))
  = online (get t init)
    + count_if (fun a => of_type t a && AgentStatus.is_online_or_busy (Agent.status a)) agents
  /\ offline (get t (healthFrom init agents))
     = offline (get t init)
       + count_if (fun a => of_type t a && negb (AgentStatus.is_online_or_busy (Agent.status a)))
           agents.
Proof.
  induction agents as [|a agents IH]; intros init; [simpl; lia |].
  unfold healthFrom in *. cbn [fold_left count_if].
  destruct (IH (if AgentStatus.is_online_or_busy (Agent.status a)
                then set (Agent.type a)
                       {| online := online (get (Agent.type a) init) + 1;
                          offline := offline (get (Agent.type a) init) |} init
                else set (Agent.type a)
                       {| online := online (get (Agent.type a) init);
                          offline := offline (get (Agent.type a) init) + 1 |} init))
    as [IHon IHoff].
  cbv zeta. rewrite IHon, IHoff. clear IH IHon IHoff. unfold of_type.
  destruct (AgentStatus.is_online_or_busy (Agent.status a));
    rewrite get_set; case_decide as E;
    [ subst; rewrite bool_decide_eq_true_2 by done
    | rewrite bool_decide_eq_false_2 by done
    | subst; rewrite bool_decide_eq_true_2 by done
    | rewrite bool_decide_eq_false_2 by done ];
    simpl; lia.
Qed.

(** C4: in the per-type health, an agent counts as online exactly when its
    status is online or busy and as offline when it is offline or error, and
    the two counters of a type add up to the count of that type. *)
Theorem typeHealth_buckets (agents : list Agent.t) (t : AgentType.t) :
  online (get t (typeHealth agents))
  = count_if
      (fun a => of_type t a && status_in [AgentStatus.online; AgentStatus.busy] a) agents
  /\ offline (get t (typeHealth agents))
     = count_if
         (fun a => of_type t a && status_in [AgentStatus.offline; AgentStatus.error] a)
         agents
  /\ online (get t (typeHealth agents)) + offline (get t (typeHealth agents))
     = get t (typeCounts agents)
  /\ get t (typeCounts agents) = count_if (of_type t) agents.
Proof.
  change (typeHealth agents)
    with (healthFrom (every {| online := 0; offline := 0 |}) agents).
  destruct (healthFrom_get t agents (every {| online := 0; offline := 0 |})) as [Hon Hoff].
  rewrite get_every in Hon, Hoff. simpl in Hon, Hoff.
  assert (Eon : forall a,
    of_type t a && AgentStatus.is_online_or_busy (Agent.status a)
    = of_type t a && status_in [AgentStatus.online; AgentStatus.busy] a).
  { intros a. unfold status_in. by rewrite is_online_or_busy_spec. }
  assert (Eoff : forall a,
    of_type t a && negb (AgentStatus.is_online_or_busy (Agent.status a))
    = of_type t a && status_in [AgentStatus.offline; AgentStatus.error] a).
  { intros a. unfold status_in.
    rewrite <- is_offline_or_error_spec, online_or_busy_negb, negb_involutive. done. }
  rewrite typeCounts_get.
  split; [rewrite Hon; by apply count_if_ext |].
  split; [rewrite Hoff; by apply count_if_ext |].
  split; [| done].
  rewrite Hon, Hoff.
  symmetry. apply (count_if_split (of_type t)
                     (fun a => AgentStatus.is_online_or_busy (Agent.status a))).
Qed.

(** *** [overdueCount] *)

(** C6: the overdue count is the number of agents whose status is offline or
    error, and it is at most the number of agents. *)
Theorem overdueCount_spec (agents : list Agent.t) :
  overdueCount agents
  = count_if (status_in [AgentStatus.offline; AgentStatus.error]) agents
  /\ overdueCount agents <= length agents.
Proof.
  assert (E : overdueCount agents
              = count_if (status_in [AgentStatus.offline; AgentStatus.error]) agents).
  { unfold overdueCount. rewrite count_if_filter. apply count_if_ext.
    intros a. unfold status_in. apply is_offline_or_error_spec. }
  split; [exact E |]. rewrite E. apply count_if_le.
Qed.

(** *** [perfByAgent] *)

Lemma find_app_or {A} (p : A -> bool) (l1 l2 : list A) :
  List.find p (l1 ++ l2)
  = match List.find p l1 with Some x => Some x | None => List.find p l2 end.
Proof. induction l1 as [|x l1 IH]; simpl; [done | by destruct (p x)]. Qed.

Lemma perfFrom_lookup k perfMetrics : forall init,
  perfFrom init perfMetrics !! k
  = match List.find (fun m => String.eqb (PerformanceMetric.agent_id m) k) (rev perfMetrics) with
    | Some m => Some m
    | None => init !! k
    end.
Proof.
  induction perfMetrics as [|m rest IH]; intros init; [done |].
  unfold perfFrom in *. cbn [fold_left rev]. rewrite IH, find_app_or.
  destruct (List.find _ (rev rest)); [done |]. simpl.
  destruct (String.eqb_spec (PerformanceMetric.agent_id m) k) as [-> | Hne].
  - apply lookup_insert_eq.
  - by apply lookup_insert_ne.
Qed.

(** C7: the performance index maps an agent identifier to the last row of the
    collection that carries it; every identifier of the collection, and no
    other, has an entry, and the entry is a row of the collection for that
    identifier. *)
Theorem perfByAgent_last_wins (perfMetrics : list PerformanceMetric.t) (k : string) :
  perfByAgent perfMetrics !! k
  = List.find (fun m => String.eqb (PerformanceMetric.agent_id m) k) (rev perfMetrics)
  /\ (forall m, perfByAgent perfMetrics !! k = Some m ->
        PerformanceMetric.agent_id m = k /\ In m perfMetrics)
  /\ (In k (map PerformanceMetric.agent_id perfMetrics) <->
      is_Some (perfByAgent perfMetrics !! k)).
Proof.
  assert (E : perfByAgent perfMetrics !! k
              = List.find (fun m => String.eqb (PerformanceMetric.agent_id m) k)
                  (rev perfMetrics)).
  { change (perfByAgent perfMetrics) with (perfFrom ∅ perfMetrics).
    rewrite perfFrom_lookup. destruct (List.find _ _); [done | apply lookup_empty]. }
  split; [exact E |]. rewrite E. split.
  - intros m Hm. apply find_some in Hm as [Hin Hk].
    split; [by apply String.eqb_eq | by apply in_rev].
  - split.
    + intros Hin. apply in_map_iff in Hin as (m & Hk & Hin).
      destruct (List.find _ _) as [m'|] eqn:Hf; [by exists m' |].
      apply in_rev in Hin. pose proof (find_none _ _ Hf m Hin) as Hn.
      simpl in Hn. by apply String.eqb_neq in Hn.
    + intros [m Hm]. apply find_some in Hm as [Hin Hk].
      apply in_map_iff. exists m. split; [by apply String.eqb_eq | by apply in_rev].
Qed.

(** *** [selectedAgent] and the detail pane *)

Lemma selectedAgent_None agents : selectedAgent agents None = None.
Proof. unfold selectedAgent. induction agents as [|a agents IH]; [done | exact IH]. Qed.

(** C9: a selected identifier that no agent of the collection carries
    resolves to no agent, and the detail pane is then the placeholder, as it
    is when nothing is selected. *)
Theorem selectedAgent_absent (agents : list Agent.t)
    (perfMetrics : list PerformanceMetric.t) (sel : string) :
  (forall a, In a agents -> Agent.id a <> sel) ->
  selectedAgent agents (Some sel) = None
  /\ detailPane agents perfMetrics (Some sel) = detail_empty
  /\ detailPane agents perfMetrics (Some sel) = detailPane agents perfMetrics None.
Proof.
  intros Habsent.
  assert (E : selectedAgent agents (Some sel) = None).
  { unfold selectedAgent. destruct (List.find _ agents) as [a|] eqn:Hf; [| done].
    apply find_some in Hf as [Hin Hid]. apply String.eqb_eq in Hid.
    by destruct (Habsent a Hin). }
  unfold detailPane. by rewrite E, selectedAgent_None.
Qed.

(** An identifier that neither [agentA] nor [agentB] carries. *)
Lemma selectedAgent_absent_witness :
  (forall a, In a [agentA; agentB] -> Agent.id a <> "zz")
  /\ selectedAgent [agentA; agentB] (Some "zz") = None
  /\ detailPane [agentA; agentB] [perfRow "a1" 12.5%float] (Some "zz") = detail_empty.
Proof.
  assert (H : forall a, In a [agentA; agentB] -> Agent.id a <> "zz").
  { intros a [<- | [<- | []]]; discriminate. }
  split; [exact H |].
  destruct (selectedAgent_absent [agentA; agentB] [perfRow "a1" 12.5%float] "zz" H)
    as (Hnone & Hempty & _).
  split; [exact Hnone | exact Hempty].
Defined.

(** *** The lookup of an identifier *)

Lemma findAgent_resolves agents id a :
  findAgent agents id = Some a <-> resolves agents id a.
Proof.
  unfold findAgent, resolves. split.
  - induction agents as [|b agents IH]; [done |]. cbn [List.find].
    destruct (String.eqb_spec (Agent.id b) id) as [Heq | Hne].
    + intros [= ->]. exists [], agents. split; [done |]. split; [done | constructor].
    + intros Hf. destruct (IH Hf) as (before & after & -> & Hid & Hall).
      exists (b :: before), after. split; [done |]. split; [done | by constructor].
  - intros (before & after & -> & Hid & Hall).
    induction Hall as [|b before Hb _ IH]; cbn [app List.find].
    + by rewrite <- Hid, String.eqb_refl.
    + apply String.eqb_neq in Hb. by rewrite Hb.
Qed.

Lemma findAgent_None agents id :
  findAgent agents id = None <-> forall a, In a agents -> Agent.id a <> id.
Proof.
  unfold findAgent. split.
  - intros Hf a Hin Hid. pose proof (find_none _ _ Hf a Hin) as Hn. simpl in Hn.
    by apply String.eqb_neq in Hn.
  - intros Habsent. destruct (List.find _ agents) as [a|] eqn:Hf; [| done].
    apply find_some in Hf as [Hin Hid]. apply String.eqb_eq in Hid.
    by destruct (Habsent a Hin).
Qed.

Lemma heartbeatsOfType_In t agents heartbeats hb :
  In hb (heartbeatsOfType t agents heartbeats)
  <-> In hb heartbeats /\ resolvesToType agents t hb.
Proof.
  unfold heartbeatsOfType, resolvesToType. rewrite filter_In. split.
  - intros [Hin Hres]. split; [done |].
    destruct (findAgent agents (Heartbeat.agent_id hb)) as [a|] eqn:Hfind;
      [| discriminate Hres].
    exists a. split; [by apply findAgent_resolves | by apply bool_decide_eq_true in Hres].
  - intros [Hin (a & Hres & Htype)]. split; [done |].
    apply findAgent_resolves in Hres. rewrite Hres. by apply bool_decide_eq_true.
Qed.

Lemma heartbeatsOfType_none t agents heartbeats :
  (forall hb, In hb heartbeats -> ~ resolvesToType agents t hb) ->
  heartbeatsOfType t agents heartbeats = [].
Proof.
  intros Hnone. destruct (heartbeatsOfType t agents heartbeats) as [|hb rest] eqn:E; [done |].
  assert (Hin : In hb (heartbeatsOfType t agents heartbeats)) by (rewrite E; by left).
  apply heartbeatsOfType_In in Hin as [Hin Hres]. by destruct (Hnone hb Hin).
Qed.

(** The loop of one type, once a valid date is in the entry: later dates that
    do not parse are passed over, every comparison with them being false. *)
Lemma later_fold_from ds : forall c, exists m,
  fold_left later ds (Some (Date.at_ms c)) = Some (Date.at_ms m)
  /\ (c <= m)%Z
  /\ (m = c \/ In (Date.at_ms m) ds)
  /\ forall x, In (Date.at_ms x) ds -> (x <= m)%Z.
Proof.
  induction ds as [|d ds IH]; intros c.
  - exists c. repeat split; [lia | by left | intros x []].
  - destruct d as [x|]; cbn [fold_left later Date.gt].
    + destruct (Z.ltb_spec c x) as [Hlt | Hge].
      * destruct (IH x) as (m & Hm & Hle & Hin & Hmax). exists m.
        split; [exact Hm |]. split; [lia |]. split.
        -- right. destruct Hin as [-> | Hin]; [by left | by right].
        -- intros y [Hy | Hy]; [injection Hy as ->; lia | by apply Hmax].
      * destruct (IH c) as (m & Hm & Hle & Hin & Hmax). exists m.
        split; [exact Hm |]. split; [lia |]. split.
        -- destruct Hin as [-> | Hin]; [by left | right; by right].
        -- intros y [Hy | Hy]; [injection Hy as ->; lia | by apply Hmax].
    + destruct (IH c) as (m & Hm & Hle & Hin & Hmax). exists m.
      split; [exact Hm |]. split; [lia |]. split.
      * destruct Hin as [-> | Hin]; [by left | right; by right].
      * intros y [Hy | Hy]; [discriminate Hy | by apply Hmax].
Qed.

(** *** [typeLastActivity] *)

Section LastActivityFacts.
Variable Date_parse : string -> Date.t.
Variable toLocaleTimeString : Date.t -> string.

(** A heartbeat whose agent identifier resolves to no agent changes nothing. *)
Lemma lastActivityStep_dangling agents last hb :
  findAgent agents (Heartbeat.agent_id hb) = None ->
  lastActivityStep Date_parse agents last hb = last.
Proof. intros E. unfold lastActivityStep. by rewrite E. Qed.

(** The entry of a type only sees the heartbeats of that type. *)
Lemma lastActivityStep_get t agents last hb :
  get t (lastActivityStep Date_parse agents last hb)
  = match findAgent agents (Heartbeat.agent_id hb) with
    | Some a =>
        if bool_decide (Agent.type a = t)
        then later (get t last) (Date_parse (Heartbeat.timestamp hb))
        else get t last
    | None => get t last
    end.
Proof.
  unfold lastActivityStep.
  destruct (findAgent agents (Heartbeat.agent_id hb)) as [a|]; [| done].
  case_bool_decide as E.
  - subst t. unfold later. destruct (get (Agent.type a) last) as [c|] eqn:Hcur.
    + destruct (Date.gt _ c); [by rewrite get_set_same | done].
    + by rewrite get_set_same.
  - destruct (get (Agent.type a) last) as [c|].
    + destruct (Date.gt _ c); [by rewrite get_set_other | done].
    + by rewrite get_set_other.
Qed.

Lemma lastActivity_fold t agents heartbeats : forall init,
  get t (fold_left (lastActivityStep Date_parse agents) heartbeats init)
  = fold_left later (datesOfType Date_parse t agents heartbeats) (get t init).
Proof.
  unfold datesOfType, heartbeatsOfType.
  induction heartbeats as [|hb rest IH]; intros init; [done |].
  cbn [fold_left List.filter]. rewrite IH, lastActivityStep_get.
  destruct (findAgent agents (Heartbeat.agent_id hb)) as [a|]; [| done].
  by case_bool_decide.
Qed.

(** C3 (as amended): for each type, when the first heartbeat, in the order
    of the collection, whose agent identifier resolves to an agent of that
    type carries a timestamp that parses to a valid date, the last activity
    of the type is the latest of the valid timestamps of the heartbeats whose
    agent identifier resolves, by lookup in the agent collection, to an agent
    of that type; a heartbeat whose identifier resolves to no agent leaves
    the record as it is; a type without such heartbeats has no value, which
    is shown as a dash. *)
Theorem typeLastActivity_latest (heartbeats : list Heartbeat.t)
    (agents : list Agent.t) (t : AgentType.t) :
  let result := get t (typeLastActivity Date_parse heartbeats agents) in
  ((forall hb, In hb heartbeats -> ~ resolvesToType agents t hb) ->
   result = None /\ lastActivityText toLocaleTimeString result = "—")
  /\ (forall before hb after c,
        heartbeats = (before ++ hb :: after)%list ->
        (forall hb', In hb' before -> ~ resolvesToType agents t hb') ->
        resolvesToType agents t hb ->
        Date_parse (Heartbeat.timestamp hb) = Date.at_ms c ->
        exists m,
          result = Some (Date.at_ms m)
          /\ (exists hb', In hb' heartbeats /\ resolvesToType agents t hb'
                          /\ Date_parse (Heartbeat.timestamp hb') = Date.at_ms m)
          /\ (forall hb' x, In hb' heartbeats -> resolvesToType agents t hb' ->
                Date_parse (Heartbeat.timestamp hb') = Date.at_ms x -> (x <= m)%Z))
  /\ (forall last hb, (forall a, In a agents -> Agent.id a <> Heartbeat.agent_id hb) ->
        lastActivityStep Date_parse agents last hb = last).
Proof.
  intros result. subst result. unfold typeLastActivity.
  rewrite lastActivity_fold, get_every. unfold datesOfType.
  split; [| split].
  - intros Hnone. by rewrite (heartbeatsOfType_none t agents heartbeats Hnone).
  - intros before hb after c -> Hbefore Hhb Hc.
    assert (Hsplit : heartbeatsOfType t agents (before ++ hb :: after)
                     = hb :: heartbeatsOfType t agents after).
    { unfold heartbeatsOfType at 1. rewrite List.filter_app.
      fold (heartbeatsOfType t agents before).
      rewrite (heartbeatsOfType_none t agents before Hbefore). cbn [app List.filter].
      destruct Hhb as (a & Hres & Htype). apply findAgent_resolves in Hres.
      rewrite Hres. by rewrite bool_decide_eq_true_2. }
    rewrite Hsplit. cbn [map fold_left later]. rewrite Hc.
    destruct (later_fold_from
                (map (fun hb => Date_parse (Heartbeat.timestamp hb))
                   (heartbeatsOfType t agents after)) c)
      as (m & Hm & Hle & Hin & Hmax).
    exists m. split; [exact Hm |]. split.
    + destruct Hin as [-> | Hin].
      * exists hb. split; [apply in_or_app; right; by left | by split].
      * apply in_map_iff in Hin as (hb' & Hd & Hin').
        apply heartbeatsOfType_In in Hin' as [Hin' Hres'].
        exists hb'. split; [apply in_or_app; right; by right | by split].
    + intros hb' x Hin' Hres' Hx.
      apply in_app_or in Hin' as [Hin' | [<- | Hin']].
      * by destruct (Hbefore hb' Hin').
      * rewrite Hc in Hx. injection Hx as <-. exact Hle.
      * apply Hmax. apply in_map_iff. exists hb'. split; [done |].
        by apply heartbeatsOfType_In.
  - intros last hb Habsent. apply lastActivityStep_dangling. by apply findAgent_None.
Qed.
End LastActivityFacts.

(** The heartbeats of the sample data and the type CrewAI: the first
    heartbeat belongs to [agentA] and its timestamp parses. *)
Lemma typeLastActivity_latest_witness :
  exists m,
    get AgentType.CrewAI (typeLastActivity sampleDate heartbeatsABX [agentA; agentB; agentC])
    = Some (Date.at_ms m)
    /\ (exists hb', In hb' heartbeatsABX
                    /\ resolvesToType [agentA; agentB; agentC] AgentType.CrewAI hb'
                    /\ sampleDate (Heartbeat.timestamp hb') = Date.at_ms m)
    /\ (forall hb' x, In hb' heartbeatsABX ->
          resolvesToType [agentA; agentB; agentC] AgentType.CrewAI hb' ->
          sampleDate (Heartbeat.timestamp hb') = Date.at_ms x -> (x <= m)%Z).
Proof.
  refine (proj1 (proj2 (typeLastActivity_latest sampleDate sampleTime heartbeatsABX
                          [agentA; agentB; agentC] AgentType.CrewAI))
            [] _ _ 2000%Z eq_refl _ _ eq_refl).
  - intros hb' [].
  - exists agentA. split; [| reflexivity].
    exists [], [agentB; agentC]. split; [reflexivity |]. split; [reflexivity | constructor].
Defined.

(** C3 as stated does not hold.  Four heartbeats of the collection resolve
    to [agentA], the only agent of type CrewAI; the timestamp of the first
    does not parse, those of the others are 2000, 3000 and 1000; the last
    activity of the type is the Invalid Date of the first and not the
    latest timestamp, 3000: no comparison with an Invalid Date holds. *)
Lemma unparsed_first_timestamp_stays :
  map Heartbeat.id (heartbeatsOfType AgentType.CrewAI [agentA; agentB; agentC] heartbeatsUnparsed)
  = ["h0"; "h1"; "h3"; "h5"]
  /\ datesOfType sampleDate AgentType.CrewAI [agentA; agentB; agentC] heartbeatsUnparsed
     = [Date.Invalid; Date.at_ms 2000; Date.at_ms 3000; Date.at_ms 1000]
  /\ CrewAI (typeLastActivity sampleDate heartbeatsUnparsed [agentA; agentB; agentC])
     = Some Date.Invalid
  /\ CrewAI (typeLastActivity sampleDate heartbeatsUnparsed [agentA; agentB; agentC])
     <> Some (Date.at_ms 3000).
Proof. repeat split. discriminate. Qed.

Example scenario_three_agents :
  overdueCount [agentA; agentB; agentC] = 2
  /\ CrewAI (typeCounts [agentA; agentB; agentC]) = 1
  /\ CrewAI (typeHealth [agentA; agentB; agentC]) = {| online := 1; offline := 0 |}
  /\ LangGraph (typeCounts [agentA; agentB; agentC]) = 1
  /\ LangGraph (typeHealth [agentA; agentB; agentC]) = {| online := 0; offline := 1 |}.
Proof. repeat split. Qed.

Example scenario_last_activity :
  typeLastActivity sampleDate heartbeatsABX [agentA; agentB; agentC]
  = {| CrewAI := Some (Date.at_ms 3000); LangGraph := Some (Date.at_ms 1000);
       BeeAI := None; OpenClaw := None; Admin := None |}.
Proof. reflexivity. Qed.

Example scenario_displayed :
  agents displayed = [agentA; agentB]
  /\ selectedAgentId displayed = Some "a1"
  /\ error displayed = None
  /\ loading displayed = false
  /\ detail <$> columns (render displayed) = Some (detail_pane agentA None).
Proof. repeat split. Qed.

(** *** A cycle that fails *)


Lemma Promise_all_rejected c r rest :
  rejections c = r :: rest -> Promise_all c = throw (snd (earliest r rest)).
Proof. intros E. unfold Promise_all. by rewrite E. Qed.

Lemma Promise_all_fulfilled c a h p l :
  fetch_agents c = fulfilled a -> fetch_heartbeats c = fulfilled h ->
  fetch_performance c = fulfilled p -> fetch_alerts c = fulfilled l ->
  Promise_all c = normal {| agentsRes := a; hbRes := h; perfRes := p; alertsRes := l |}.
Proof.
  intros Ea Eh Ep El. unfold Promise_all, rejections. by rewrite Ea, Eh, Ep, El.
Qed.

Lemma rejections_nil c :
  rejections c = [] ->
  exists a h p l,
    fetch_agents c = fulfilled a /\ fetch_heartbeats c = fulfilled h
    /\ fetch_performance c = fulfilled p /\ fetch_alerts c = fulfilled l.
Proof.
  unfold rejections.
  destruct (fetch_agents c) as [a|]; [| done].
  destruct (fetch_heartbeats c) as [h|]; [| done].
  destruct (fetch_performance c) as [p|]; [| done].
  destruct (fetch_alerts c) as [l|]; [| done].
  intros _. by exists a, h, p, l.
Qed.

Lemma failureMessage_truthy what status :
  truthy (Some (failureMessage what status)) = true.
Proof. reflexivity. Qed.

(** The state after the [catch] block and [finally]. *)
Lemma fetchAll_settled_throw captured now c st err :
  fetched c = throw err ->
  fetchAll_settled captured now c st
  = setLoading false (setError (Some (errorMessage err)) st).
Proof. intros E. unfold fetchAll_settled. by rewrite E. Qed.





(** *** A cycle that succeeds *)

Lemma fetchAll_settled_normal captured now c d st :
  fetched c = normal d ->
  fetchAll_settled captured now c st = setLoading false (applyPayload captured now d st).
Proof. intros E. unfold fetchAll_settled. by rewrite E. Qed.

Lemma applyPayload_selection captured now d st :
  selectedAgentId (applyPayload captured now d st)
  = if negb (truthy captured) && (0 <? length (agentsData d))%nat
    then Agent.id <$> head (agentsData d)
    else selectedAgentId st.
Proof. unfold applyPayload. by destruct (negb (truthy captured) && _). Qed.

Lemma applyPayload_snapshot captured now d st :
  snapshot (applyPayload captured now d st) = d.
Proof.
  unfold applyPayload. destruct d.
  by destruct (negb (truthy captured) && _).
Qed.

Lemma applyPayload_flags captured now d st :
  error (applyPayload captured now d st) = None
  /\ lastUpdated (applyPayload captured now d st) = Some now.
Proof. unfold applyPayload. by destruct (negb (truthy captured) && _). Qed.

Lemma selectedAgent_head first rest :
  selectedAgent (first :: rest) (Some (Agent.id first)) = Some first.
Proof. unfold selectedAgent. simpl. by rewrite String.eqb_refl. Qed.

Lemma settled_selection captured now c d st :
  fetched c = normal d ->
  selectedAgentId (fetchAll_settled captured now c st)
  = (if negb (truthy captured) && (0 <? length (agentsData d))%nat
     then Agent.id <$> head (agentsData d)
     else selectedAgentId st)
  /\ agents (fetchAll_settled captured now c st) = agentsData d
  /\ error (fetchAll_settled captured now c st) = None
  /\ refreshSeconds (fetchAll_settled captured now c st) = refreshSeconds st.
Proof.
  intros Hok. rewrite (fetchAll_settled_normal captured now c d st Hok).
  cbn [selectedAgentId agents error refreshSeconds setLoading].
  pose proof (applyPayload_snapshot captured now d st) as Hsnap.
  apply (f_equal agentsData) in Hsnap. cbn [snapshot agentsData] in Hsnap.
  destruct (applyPayload_flags captured now d st) as [Herr _].
  split; [apply applyPayload_selection |]. split; [done |]. split; [done |].
  unfold applyPayload. by destruct (negb (truthy captured) && _).
Qed.

(** The settlement of a waiting run, on the component: the effect is
    re-created, and a run started, exactly when the selection has changed. *)
Lemma step_settle m r captured now c d :
  inflight m !! r = Some captured ->
  fetched c = normal d ->
  (selectedAgentId (fetchAll_settled captured now c (ui m)) = selectedAgentId (ui m) ->
   step m (settle r now c)
   = {| ui := fetchAll_settled captured now c (ui m);
        inflight := delete r (inflight m);
        started := started m |})
  /\ (selectedAgentId (fetchAll_settled captured now c (ui m)) <> selectedAgentId (ui m) ->
      step m (settle r now c)
      = startCycle {| ui := fetchAll_settled captured now c (ui m);
                      inflight := delete r (inflight m);
                      started := started m |}).
Proof.
  intros Hr Hok. cbn [step]. rewrite Hr. unfold commit.
  destruct (settled_selection captured now c d (ui m) Hok) as (_ & _ & _ & Hint).
  split; intros Hsel.
  - by rewrite bool_decide_eq_true_2.
  - rewrite bool_decide_eq_false_2; [done |]. by intros [? _].
Qed.

Lemma step_settle_selection m r captured now c d :
  inflight m !! r = Some captured ->
  fetched c = normal d ->
  selectedAgentId (ui (step m (settle r now c)))
  = selectedAgentId (fetchAll_settled captured now c (ui m))
  /\ agents (ui (step m (settle r now c))) = agentsData d.
Proof.
  intros Hr Hok.
  destruct (settled_selection captured now c d (ui m) Hok) as (_ & Hagents & _ & _).
  destruct (step_settle m r captured now c d Hr Hok) as [Hsame Hrestart].
  destruct (decide (selectedAgentId (fetchAll_settled captured now c (ui m))
                    = selectedAgentId (ui m))) as [E | E].
  - by rewrite (Hsame E).
  - by rewrite (Hrestart E).
Qed.

(** C5 (as amended): after a successful cycle, if the cycle read a null
    selection when it was started and the new collection of agents is not
    empty, the first agent of that collection, in the order of the response,
    is selected, whatever has been selected since the cycle was started; if
    the new collection is empty the selection is left as it is (on first
    load: nothing is selected) and the detail pane shows the placeholder; if
    the cycle read a non-empty identifier, the selection is left as it is. *)
Theorem selection_bootstrap (m : Machine) (r : nat) (captured : option string)
    (now : Date.t) (c : Cycle) (d : Payload) :
  inflight m !! r = Some captured ->
  fetched c = normal d ->
  (captured = None ->
   forall first rest, agentsData d = first :: rest ->
     selectedAgentId (ui (step m (settle r now c))) = Some (Agent.id first)
     /\ selectedAgent (agents (ui (step m (settle r now c))))
          (selectedAgentId (ui (step m (settle r now c)))) = Some first)
  /\ (agentsData d = [] ->
      selectedAgentId (ui (step m (settle r now c))) = selectedAgentId (ui m)
      /\ detail <$> columns (render (ui (step m (settle r now c)))) = Some detail_empty)
  /\ (forall sel, captured = Some sel -> sel <> "" ->
        selectedAgentId (ui (step m (settle r now c))) = selectedAgentId (ui m)).
Proof.
  intros Hr Hok.
  destruct (step_settle_selection m r captured now c d Hr Hok) as [Hsel Hagents].
  destruct (settled_selection captured now c d (ui m) Hok) as (Hnew & Hag & Herr & _).
  split; [| split].
  - intros -> first rest Hd. rewrite Hsel, Hagents, Hnew, Hd. cbn.
    split; [done | apply selectedAgent_head].
  - intros Hd.
    assert (Hkeep : selectedAgentId (fetchAll_settled captured now c (ui m))
                    = selectedAgentId (ui m)).
    { rewrite Hnew, Hd. by rewrite andb_false_r. }
    split; [by rewrite Hsel |].
    rewrite (proj1 (step_settle m r captured now c d Hr Hok) Hkeep). cbn [ui].
    unfold render, detailPane. cbn [columns]. rewrite Herr, Hag, Hd.
    unfold fetchAll_settled. cbn [loading setLoading truthy negb andb].
    done.
  - intros sel -> Hne. rewrite Hsel, Hnew. cbn [truthy].
    apply String.eqb_neq in Hne. by rewrite Hne.
Qed.

(** First load: the four responses of the first run are empty arrays. *)
Lemma selection_bootstrap_witness :
  inflight mounted !! 0 = Some None
  /\ fetched (cycleOf [] (respond 200 []))
     = normal {| agentsData := []; hbData := []; perfData := []; alertsData := [] |}
  /\ selectedAgentId
       (ui (step mounted (settle 0 (Date.at_ms 1000) (cycleOf [] (respond 200 [])))))
     = None
  /\ detail <$> columns
       (render (ui (step mounted (settle 0 (Date.at_ms 1000) (cycleOf [] (respond 200 []))))))
     = Some detail_empty.
Proof.
  split; [reflexivity |]. split; [reflexivity |].
  exact (proj1 (proj2 (selection_bootstrap mounted 0 None (Date.at_ms 1000)
                         (cycleOf [] (respond 200 [])) _ eq_refl eq_refl))
           eq_refl).
Defined.

(** C5 as stated does not hold.  Every event of [lateTrace] is one the
    screen offers.  After it [agentB] is selected, by a click on its card,
    and the first run, started at mount with a null selection, still waits;
    its answer, which carries the same two agents, selects [agentA]: the
    selection does not survive the refresh. *)
Lemma selected_agent_replaced :
  feasible mounted lateTrace = true
  /\ selectedAgent (agents (ui lateAnswer)) (selectedAgentId (ui lateAnswer)) = Some agentB
  /\ loading (ui lateAnswer) = false
  /\ inflight lateAnswer !! 0 = Some None
  /\ selectedAgent
       (agents (ui (step lateAnswer
                      (settle 0 (Date.at_ms 4000)
                         (cycleOf [agentA; agentB] (respond 200 []))))))
       (selectedAgentId (ui (step lateAnswer
                               (settle 0 (Date.at_ms 4000)
                                  (cycleOf [agentA; agentB] (respond 200 []))))))
     = Some agentA.
Proof. by vm_compute. Qed.

(** C10 (as amended): a successful cycle that read a non-empty identifier
    when it was started leaves the selected identifier as it is; in
    particular a selected identifier that no agent of the new collection
    carries is kept, resolves to no agent, and is not replaced by the first
    agent.  A successful cycle that read a null selection selects the first
    agent of a new collection that is not empty, whatever has been selected
    since it was started, and leaves the selection as it is when the new
    collection is empty. *)
Theorem selection_frame (m : Machine) (r : nat) (captured : option string)
    (now : Date.t) (c : Cycle) (d : Payload) :
  inflight m !! r = Some captured ->
  fetched c = normal d ->
  (forall sel, captured = Some sel -> sel <> "" ->
     selectedAgentId (ui (step m (settle r now c))) = selectedAgentId (ui m)
     /\ (forall current, selectedAgentId (ui m) = Some current ->
           (forall a, In a (agentsData d) -> Agent.id a <> current) ->
           selectedAgentId (ui (step m (settle r now c))) = Some current
           /\ selectedAgent (agents (ui (step m (settle r now c))))
                (selectedAgentId (ui (step m (settle r now c)))) = None))
  /\ (captured = None -> agentsData d <> [] ->
      selectedAgentId (ui (step m (settle r now c))) = Agent.id <$> head (agentsData d))
  /\ (captured = None -> agentsData d = [] ->
      selectedAgentId (ui (step m (settle r now c))) = selectedAgentId (ui m)).
Proof.
  intros Hr Hok.
  destruct (step_settle_selection m r captured now c d Hr Hok) as [Hsel Hagents].
  destruct (settled_selection captured now c d (ui m) Hok) as (Hnew & _ & _ & _).
  split; [| split].
  - intros sel -> Hne.
    assert (Hkeep : selectedAgentId (ui (step m (settle r now c))) = selectedAgentId (ui m)).
    { rewrite Hsel, Hnew. cbn [truthy]. apply String.eqb_neq in Hne. by rewrite Hne. }
    split; [exact Hkeep |].
    intros current Hcur Habsent. rewrite Hkeep, Hcur, Hagents. split; [done |].
    unfold selectedAgent. destruct (List.find _ _) as [a|] eqn:Hf; [| done].
    apply find_some in Hf as [Hin Hid]. apply String.eqb_eq in Hid.
    by destruct (Habsent a Hin).
  - intros -> Hd. rewrite Hsel, Hnew. cbn [truthy negb andb].
    by destruct (agentsData d).
  - intros -> Hd. rewrite Hsel, Hnew, Hd. done.
Qed.

(** After [lateTrace], run 3, which the click on [agentB] started, has been
    answered; a tick starts run 4, which reads the selection of [agentB]; its
    answer no longer carries [agentB], and the selection is kept. *)
Lemma selection_frame_witness :
  inflight (step lateAnswer tick) !! 4 = Some (Some "b2")
  /\ fetched (cycleOf [agentA; agentC] (respond 200 []))
     = normal {| agentsData := [agentA; agentC]; hbData := []; perfData := [];
                 alertsData := [] |}
  /\ selectedAgentId
       (ui (step (step lateAnswer tick)
              (settle 4 (Date.at_ms 5000) (cycleOf [agentA; agentC] (respond 200 [])))))
     = selectedAgentId (ui (step lateAnswer tick)).
Proof.
  split; [reflexivity |]. split; [reflexivity |].
  refine (proj1 (proj1 (selection_frame (step lateAnswer tick) 4 (Some "b2")
                          (Date.at_ms 5000) (cycleOf [agentA; agentC] (respond 200 [])) _
                          eq_refl eq_refl)
                   "b2" eq_refl _)).
  discriminate.
Defined.

(** C10 as stated does not hold.  Every event of [lateTrace] is one the
    screen offers.  After it the selected identifier is that of [agentB],
    not null, and the first run, started at mount, still waits; its answer
    carries [agentA] and [agentC] only, and the identifier of [agentB], which
    no longer exists in the new collection, is not kept: it is replaced by
    that of the first agent. *)
Lemma dangling_selection_replaced :
  feasible mounted lateTrace = true
  /\ selectedAgentId (ui lateAnswer) = Some "b2"
  /\ inflight lateAnswer !! 0 = Some None
  /\ agents (ui (step lateAnswer
                   (settle 0 (Date.at_ms 4000) (cycleOf [agentA; agentC] (respond 200 [])))))
     = [agentA; agentC]
  /\ selectedAgentId
       (ui (step lateAnswer
              (settle 0 (Date.at_ms 4000) (cycleOf [agentA; agentC] (respond 200 [])))))
     = Some "a1".
Proof. by vm_compute. Qed.

(** The test [!selectedAgentId] of line 99 also holds for the empty string.
    Every event of [noIdTrace] is one the screen offers; after it the agent
    whose identifier is the empty string is selected, and the answer of the
    run which that click started selects [agentA]. *)
Example empty_identifier_reads_as_null :
  feasible mounted noIdTrace = true
  /\ selectedAgent (agents (ui noIdClicked)) (selectedAgentId (ui noIdClicked))
     = Some agentNoId
  /\ inflight noIdClicked !! 2 = Some (Some "")
  /\ selectedAgentId
       (ui (step noIdClicked
              (settle 2 (Date.at_ms 3000) (cycleOf [agentA; agentNoId] (respond 200 [])))))
     = Some "a1".
Proof. by vm_compute. Qed.

(** *** Overlapping cycles *)

Lemma commit_ui_snapshot m st inflight' :
  snapshot (ui (commit m st inflight')) = snapshot st
  /\ lastUpdated (ui (commit m st inflight')) = lastUpdated st
  /\ selectedAgentId (ui (commit m st inflight')) = selectedAgentId st.
Proof. unfold commit. by case_bool_decide. Qed.

Lemma startCycle_captures m :
  inflight (startCycle m) !! started m = Some (selectedAgentId (ui m)).
Proof. unfold startCycle. cbn [inflight]. apply lookup_insert_eq. Qed.

Lemma startCycle_waiting m : waiting_started m -> waiting_started (startCycle m).
Proof.
  intros Hm r. unfold startCycle. cbn [inflight started].
  destruct (decide (started m = r)) as [<- | Hne]; [lia |].
  rewrite lookup_insert_ne by done. intros Hr. apply Hm in Hr. lia.
Qed.

Lemma commit_waiting m st inflight' :
  (forall r, is_Some (inflight' !! r) -> r < started m) ->
  waiting_started (commit m st inflight').
Proof.
  intros H. unfold commit. case_bool_decide; [exact H |].
  by apply startCycle_waiting.
Qed.

Lemma step_waiting m e : waiting_started m -> waiting_started (step m e).
Proof.
  intros Hm. destruct e as [|r now c|id|value|tab|]; cbn [step];
    try (apply commit_waiting; exact Hm).
  - by apply startCycle_waiting.
  - destruct (inflight m !! r) as [captured|] eqn:Hr; [| exact Hm].
    apply commit_waiting. intros r' Hr'. apply Hm.
    destruct (decide (r = r')) as [<- | Hne]; [by rewrite Hr |].
    by rewrite lookup_delete_ne in Hr'.
Qed.

(** Whatever happens after the mount, a waiting run is one that was started. *)
Lemma run_waiting events : waiting_started (run mounted events).
Proof.
  unfold run. rewrite <- fold_left_rev_right.
  induction (rev events) as [|e evs IH]; cbn [fold_right].
  - intros r. unfold mounted, startCycle. cbn [inflight started].
    destruct (decide (0 = r)) as [<- | Hne]; [lia |].
    rewrite lookup_insert_ne, lookup_empty by done. by intros [? ?].
  - by apply step_waiting.
Qed.

(** C2 (as amended): nothing is discarded.  The answer of every run of
    [fetchAll] that is still waiting is applied when it arrives, however many
    runs were started after it: a successful answer replaces the four
    collections and the time of the last update, so that the snapshot on
    screen is the one of the answer that arrived last. *)
Theorem settled_run_is_applied (m : Machine) (r : nat) (captured : option string)
    (now : Date.t) (c : Cycle) (d : Payload) :
  inflight m !! r = Some captured ->
  fetched c = normal d ->
  snapshot (ui (step m (settle r now c))) = d
  /\ lastUpdated (ui (step m (settle r now c))) = Some now.
Proof.
  intros Hwaiting Hok. cbn [step]. rewrite Hwaiting.
  destruct (commit_ui_snapshot m (fetchAll_settled captured now c (ui m))
              (delete r (inflight m))) as (Hsnap & Hlast & _).
  rewrite Hsnap, Hlast, (fetchAll_settled_normal captured now c d (ui m) Hok).
  destruct (applyPayload_flags captured now d (ui m)) as [_ Hnow].
  split; [apply applyPayload_snapshot | exact Hnow].
Qed.

(** The first run is answered after the second one, which was started later. *)
Lemma settled_run_is_applied_witness :
  inflight overlapped !! 0 = Some None
  /\ fetched (cycleOf [agentA] (respond 200 []))
     = normal {| agentsData := [agentA]; hbData := []; perfData := []; alertsData := [] |}
  /\ snapshot (ui (step overlapped
                     (settle 0 (Date.at_ms 3000) (cycleOf [agentA] (respond 200 [])))))
     = {| agentsData := [agentA]; hbData := []; perfData := []; alertsData := [] |}.
Proof.
  split; [reflexivity |]. split; [reflexivity |].
  exact (proj1 (settled_run_is_applied overlapped 0 None (Date.at_ms 3000)
                  (cycleOf [agentA] (respond 200 [])) _ eq_refl eq_refl)).
Defined.

(** C2 as stated does not hold: run 0 was started at mount, run 1 by the next
    tick; the answer of run 1 arrived first and put [agentB] on screen; the
    answer of run 0, which arrives after run 1 was started, overwrites it. *)
Lemma stale_response_overwrites :
  inflight overlapped !! 0 = Some None
  /\ started overlapped = 3
  /\ agents (ui overlapped) = [agentB]
  /\ lastUpdated (ui overlapped) = Some (Date.at_ms 2000)
  /\ agents (ui (step overlapped
                   (settle 0 (Date.at_ms 3000) (cycleOf [agentA] (respond 200 [])))))
     = [agentA].
Proof. by vm_compute. Qed.

(** * Further properties of the component *)

(** ** Colours and counters *)

(** X1: two statuses that are drawn in the same colour are the same status. *)
Theorem statusColor_injective (s1 s2 : AgentStatus.t) :
  statusColor s1 = statusColor s2 -> s1 = s2.
Proof. destruct s1, s2; simpl; intros H; first [reflexivity | discriminate H]. Qed.

Lemma statusColor_injective_witness :
  statusColor AgentStatus.busy = statusColor AgentStatus.busy
  /\ AgentStatus.busy = AgentStatus.busy.
Proof.
  split; [reflexivity |].
  exact (statusColor_injective AgentStatus.busy AgentStatus.busy eq_refl).
Defined.

(** X2: the number of high-priority alerts is the number of alerts whose
    severity is critical; it is at most the number of alerts, and the count
    of two collections put end to end is the sum of their counts. *)
Theorem highPriorityAlertsCount_spec (alerts more : list Alert.t) :
  highPriorityAlertsCount alerts
  = count_if (fun a => bool_decide (Alert.severity a = AlertSeverity.critical)) alerts
  /\ highPriorityAlertsCount alerts <= length alerts
  /\ highPriorityAlertsCount (alerts ++ more)
     = highPriorityAlertsCount alerts + highPriorityAlertsCount more.
Proof.
  assert (E : forall l, highPriorityAlertsCount l
              = count_if (fun a => bool_decide (Alert.severity a = AlertSeverity.critical)) l).
  { intros l. unfold highPriorityAlertsCount. rewrite count_if_filter.
    apply count_if_ext. intros a. by destruct (Alert.severity a). }
  split; [apply E |]. split; [rewrite E; apply count_if_le |].
  unfold highPriorityAlertsCount. by rewrite List.filter_app, length_app.
Qed.

Lemma count_if_by_type (q : Agent.t -> bool) agents :
  count_if (fun a => of_type AgentType.CrewAI a && q a) agents
  + count_if (fun a => of_type AgentType.LangGraph a && q a) agents
  + count_if (fun a => of_type AgentType.BeeAI a && q a) agents
  + count_if (fun a => of_type AgentType.OpenClaw a && q a) agents
  + count_if (fun a => of_type AgentType.Admin a && q a) agents
  = count_if q agents.
Proof.
  induction agents as [|a agents IH]; [done |].
  cbn [count_if]. rewrite <- IH. unfold of_type.
  destruct (Agent.type a), (q a); simpl; lia.
Qed.

(** X3: the overdue count of the top bar is the sum of the five offline
    counters of the architecture tab, and the online and offline counters
    together add up to the number of agents. *)
Theorem overdueCount_is_total_offline (agents : list Agent.t) :
  overdueCount agents = totalOffline (typeHealth agents)
  /\ totalOnline (typeHealth agents) + totalOffline (typeHealth agents) = length agents.
Proof.
  assert (Hget : forall t,
    online (get t (typeHealth agents))
    = count_if (fun a => of_type t a && AgentStatus.is_online_or_busy (Agent.status a)) agents
    /\ offline (get t (typeHealth agents))
       = count_if (fun a => of_type t a && negb (AgentStatus.is_online_or_busy (Agent.status a)))
           agents).
  { intros t.
    change (typeHealth agents)
      with (healthFrom (every {| online := 0; offline := 0 |}) agents).
    destruct (healthFrom_get t agents (every {| online := 0; offline := 0 |})) as [Hon Hoff].
    rewrite get_every in Hon, Hoff. by split. }
  assert (Hoff : totalOffline (typeHealth agents)
                 = count_if (fun a => negb (AgentStatus.is_online_or_busy (Agent.status a)))
                     agents).
  { rewrite <- (count_if_by_type
                  (fun a => negb (AgentStatus.is_online_or_busy (Agent.status a)))).
    unfold totalOffline.
    rewrite <- (proj2 (Hget AgentType.CrewAI)), <- (proj2 (Hget AgentType.LangGraph)),
      <- (proj2 (Hget AgentType.BeeAI)), <- (proj2 (Hget AgentType.OpenClaw)),
      <- (proj2 (Hget AgentType.Admin)). done. }
  assert (Hon : totalOnline (typeHealth agents)
                = count_if (fun a => AgentStatus.is_online_or_busy (Agent.status a)) agents).
  { rewrite <- (count_if_by_type
                  (fun a => AgentStatus.is_online_or_busy (Agent.status a))).
    unfold totalOnline.
    rewrite <- (proj1 (Hget AgentType.CrewAI)), <- (proj1 (Hget AgentType.LangGraph)),
      <- (proj1 (Hget AgentType.BeeAI)), <- (proj1 (Hget AgentType.OpenClaw)),
      <- (proj1 (Hget AgentType.Admin)). done. }
  split.
  - rewrite Hoff. unfold overdueCount. rewrite count_if_filter.
    apply count_if_ext. intros a. by rewrite online_or_busy_negb, negb_involutive.
  - rewrite Hon, Hoff. clear.
    induction agents as [|a agents IH]; [done |]. cbn [count_if length].
    destruct (AgentStatus.is_online_or_busy (Agent.status a)); simpl; lia.
Qed.

Lemma TypeRecord_ext {T} (r r' : TypeRecord T) :
  (forall k, get k r = get k r') -> r = r'.
Proof.
  intros H. destruct r, r'.
  pose proof (H AgentType.CrewAI). pose proof (H AgentType.LangGraph).
  pose proof (H AgentType.BeeAI). pose proof (H AgentType.OpenClaw).
  pose proof (H AgentType.Admin). simpl in *. by subst.
Qed.

Lemma count_if_Permutation {A} (p : A -> bool) l l' :
  Permutation l l' -> count_if p l = count_if p l'.
Proof.
  induction 1 as [|x l l' _ IH|x y l|l l' l'' _ IH1 _ IH2]; cbn [count_if];
    [done | by rewrite IH | lia | by rewrite IH1].
Qed.

(** X4: the counters do not depend on the order in which the source returns
    the agents: a permutation of the collection has the same per-type counts,
    the same per-type health and the same overdue count. *)
Theorem counters_ignore_order (agents agents' : list Agent.t) :
  Permutation agents agents' ->
  typeCounts agents = typeCounts agents'
  /\ typeHealth agents = typeHealth agents'
  /\ overdueCount agents = overdueCount agents'.
Proof.
  intros Hperm. split; [| split].
  - apply TypeRecord_ext. intros t. rewrite !typeCounts_get.
    by apply count_if_Permutation.
  - apply TypeRecord_ext. intros t.
    change (typeHealth agents)
      with (healthFrom (every {| online := 0; offline := 0 |}) agents).
    change (typeHealth agents')
      with (healthFrom (every {| online := 0; offline := 0 |}) agents').
    destruct (healthFrom_get t agents (every {| online := 0; offline := 0 |})) as [Hon Hoff].
    destruct (healthFrom_get t agents' (every {| online := 0; offline := 0 |}))
      as [Hon' Hoff'].
    rewrite (count_if_Permutation _ _ _ Hperm) in Hon.
    rewrite (count_if_Permutation _ _ _ Hperm) in Hoff.
    rewrite <- Hon' in Hon. rewrite <- Hoff' in Hoff.
    destruct (get t (healthFrom _ agents)), (get t (healthFrom _ agents')).
    simpl in Hon, Hoff. by subst.
  - unfold overdueCount. rewrite !count_if_filter. by apply count_if_Permutation.
Qed.

Lemma counters_ignore_order_witness :
  Permutation [agentA; agentB; agentC] [agentC; agentA; agentB]
  /\ typeHealth [agentA; agentB; agentC] = typeHealth [agentC; agentA; agentB].
Proof.
  assert (H : Permutation [agentA; agentB; agentC] [agentC; agentA; agentB]).
  { symmetry. apply (Permutation_cons_append [agentA; agentB] agentC). }
  split; [exact H |].
  exact (proj1 (proj2 (counters_ignore_order _ _ H))).
Defined.

(** X5: a selected identifier that an agent of the collection carries resolves
    to the first agent, in the order of the collection, that carries it, and,
    when the identifiers of the collection are pairwise distinct, to the only
    one. *)
Theorem selectedAgent_found (agents : list Agent.t) (a : Agent.t) :
  In a agents ->
  (exists a', selectedAgent agents (Some (Agent.id a)) = Some a'
              /\ resolves agents (Agent.id a) a')
  /\ (NoDup (map Agent.id agents) -> selectedAgent agents (Some (Agent.id a)) = Some a).
Proof.
  intros Hin. split.
  - change (selectedAgent agents (Some (Agent.id a))) with (findAgent agents (Agent.id a)).
    destruct (findAgent agents (Agent.id a)) as [a'|] eqn:Hf.
    + exists a'. split; [done | by apply findAgent_resolves].
    + exfalso. by apply (proj1 (findAgent_None agents (Agent.id a)) Hf a Hin).
  - unfold selectedAgent. induction agents as [|b agents IH]; [destruct Hin |].
    cbn [List.find]. intros Hnodup. cbn [map] in Hnodup.
    apply NoDup_cons in Hnodup as [Hnotin Hnodup].
    destruct (String.eqb_spec (Agent.id b) (Agent.id a)) as [Heq | Hne].
    + destruct Hin as [-> | Hin]; [done |].
      exfalso. apply Hnotin. rewrite Heq. apply list_elem_of_In, in_map, Hin.
    + destruct Hin as [-> | Hin]; [done |]. by apply IH.
Qed.

Lemma selectedAgent_found_witness :
  In agentB [agentA; agentB; agentC]
  /\ selectedAgent [agentA; agentB; agentC] (Some "b2") = Some agentB.
Proof.
  assert (H : In agentB [agentA; agentB; agentC]) by (right; left; reflexivity).
  split; [exact H |].
  apply (proj2 (selectedAgent_found [agentA; agentB; agentC] agentB H)).
  apply (bool_decide_unpack _). vm_compute. exact I.
Defined.

(** ** Last activity without any assumption on the timestamps *)

Lemma later_fold_some ds : forall c,
  exists d, fold_left later ds (Some c) = Some d /\ (d = c \/ In d ds).
Proof.
  induction ds as [|x ds IH]; intros c; cbn [fold_left later].
  - exists c. by split; [| left].
  - destruct (Date.gt x c).
    + destruct (IH x) as (d & Hd & Hw). exists d. split; [exact Hd | right].
      destruct Hw as [-> | Hin]; [by left | by right].
    + destruct (IH c) as (d & Hd & Hw). exists d. split; [exact Hd |].
      destruct Hw as [-> | Hin]; [by left | right; by right].
Qed.

(** X6: whatever the timestamps are, a type has a last activity exactly when
    some heartbeat resolves to an agent of that type, and the last activity
    is then the date of one of those heartbeats; in particular a type without
    agents has none. *)
Theorem typeLastActivity_some_iff (Date_parse : string -> Date.t)
    (heartbeats : list Heartbeat.t) (agents : list Agent.t) (t : AgentType.t) :
  (get t (typeLastActivity Date_parse heartbeats agents) = None
   <-> heartbeatsOfType t agents heartbeats = [])
  /\ (forall d, get t (typeLastActivity Date_parse heartbeats agents) = Some d ->
        exists hb a, In hb heartbeats
                     /\ findAgent agents (Heartbeat.agent_id hb) = Some a
                     /\ Agent.type a = t
                     /\ d = Date_parse (Heartbeat.timestamp hb))
  /\ (count_if (of_type t) agents = 0 ->
      get t (typeLastActivity Date_parse heartbeats agents) = None).
Proof.
  unfold typeLastActivity. rewrite lastActivity_fold, get_every. unfold datesOfType.
  assert (Hmem : forall hb, In hb (heartbeatsOfType t agents heartbeats) ->
            exists a, In hb heartbeats
                      /\ findAgent agents (Heartbeat.agent_id hb) = Some a
                      /\ Agent.type a = t).
  { intros hb Hhb. unfold heartbeatsOfType in Hhb. apply filter_In in Hhb as [Hin Hres].
    destruct (findAgent agents (Heartbeat.agent_id hb)) as [a|]; [| discriminate Hres].
    exists a. split; [done | split; [done |]]. by apply bool_decide_eq_true in Hres. }
  destruct (heartbeatsOfType t agents heartbeats) as [|hb rest] eqn:Hof.
  - cbn [map fold_left]. split; [done |]. split; [intros d [=] | done].
  - cbn [map fold_left later].
    destruct (later_fold_some
                (map (fun hb => Date_parse (Heartbeat.timestamp hb)) rest)
                (Date_parse (Heartbeat.timestamp hb))) as (d & Hd & Hwhich).
    rewrite Hd. split; [by split |]. split.
    + intros d' [= <-]. destruct Hwhich as [-> | Hin].
      * destruct (Hmem hb (or_introl eq_refl)) as (a & ? & ? & ?). by exists hb, a.
      * apply in_map_iff in Hin as (hb' & <- & Hin').
        destruct (Hmem hb' (or_intror Hin')) as (a & ? & ? & ?). by exists hb', a.
    + intros Hnone. exfalso.
      destruct (Hmem hb (or_introl eq_refl)) as (a & _ & Hfind & Htype).
      apply find_some in Hfind as [Hin _].
      clear -Hnone Hin Htype. induction agents as [|b agents IH]; [destruct Hin |].
      cbn [count_if] in Hnone. destruct Hin as [-> | Hin].
      * unfold of_type in Hnone. rewrite bool_decide_eq_true_2 in Hnone by done. lia.
      * apply IH; [lia | done].
Qed.

(** ** The rows of the tables *)

Lemma append_prefix_inj (p s1 s2 : string) : p ++ s1 = p ++ s2 -> s1 = s2.
Proof. induction p as [|c p IH]; simpl; [done | intros [= H]; by apply IH]. Qed.

(** X8: when the identifiers of the agents are pairwise distinct, so are the
    keys of the rows of [decisions] and of [signals]. *)
Theorem row_keys_distinct (agents : list Agent.t) :
  NoDup (map Agent.id agents) ->
  NoDup (map Decision.id (Rows.decisions agents))
  /\ NoDup (map Signal.id (Rows.signals agents)).
Proof.
  intros Hnodup.
  assert (Hd : map Decision.id (Rows.decisions agents)
               = map (fun s => "decision-" ++ s) (map Agent.id agents)).
  { apply list_eq. intros i. unfold Rows.decisions.
    change (map ?f ?l) with (fmap (M := list) f l).
    rewrite !list_lookup_fmap, list_lookup_imap. by destruct (agents !! i). }
  assert (Hs : map Signal.id (Rows.signals agents)
               = map (fun s => "signal-" ++ s) (map Agent.id agents)).
  { apply list_eq. intros i. unfold Rows.signals.
    change (map ?f ?l) with (fmap (M := list) f l).
    rewrite !list_lookup_fmap, list_lookup_imap. by destruct (agents !! i). }
  assert (Hinj : forall p, Inj (=) (=) (fun s => p ++ s)).
  { intros p s1 s2. apply append_prefix_inj. }
  rewrite Hd, Hs. split.
  - exact (NoDup_fmap_2 (fun s => "decision-" ++ s) _ Hnodup).
  - exact (NoDup_fmap_2 (fun s => "signal-" ++ s) _ Hnodup).
Qed.

Lemma row_keys_distinct_witness :
  NoDup (map Agent.id [agentA; agentB; agentC])
  /\ NoDup (map Decision.id (Rows.decisions [agentA; agentB; agentC])).
Proof.
  assert (H : NoDup (map Agent.id [agentA; agentB; agentC])).
  { apply (bool_decide_unpack _). vm_compute. exact I. }
  split; [exact H |]. exact (proj1 (row_keys_distinct _ H)).
Defined.

Lemma findAgent_Some agents id a :
  findAgent agents id = Some a -> In a agents /\ Agent.id a = id.
Proof.
  intros H. apply find_some in H as [Hin Hid]. by apply String.eqb_eq in Hid.
Qed.

(** X10: the table of the crons tab has a row for each heartbeat whose agent
    identifier resolves to an agent, in the order of the heartbeats, and for
    no other; the agent of a row is the one its heartbeat resolves to; the
    number of rows is the sum over the five types of the numbers of
    heartbeats of [heartbeatsOfType]; a row is highlighted exactly when the
    identifier of its heartbeat is the selected one. *)
Theorem cronRows_resolved (heartbeats : list Heartbeat.t) (agents : list Agent.t)
    (selectedAgentId : option string) :
  map cron_heartbeat (cronRows heartbeats agents selectedAgentId)
  = List.filter
      (fun hb => bool_decide (is_Some (findAgent agents (Heartbeat.agent_id hb))))
      heartbeats
  /\ (forall row, In row (cronRows heartbeats agents selectedAgentId) ->
        findAgent agents (Heartbeat.agent_id (cron_heartbeat row)) = Some (cron_agent row)
        /\ In (cron_agent row) agents
        /\ Agent.id (cron_agent row) = Heartbeat.agent_id (cron_heartbeat row)
        /\ (cron_isSelected row = true
            <-> selectedAgentId = Some (Heartbeat.agent_id (cron_heartbeat row))))
  /\ length (cronRows heartbeats agents selectedAgentId)
     = length (heartbeatsOfType AgentType.CrewAI agents heartbeats)
       + length (heartbeatsOfType AgentType.LangGraph agents heartbeats)
       + length (heartbeatsOfType AgentType.BeeAI agents heartbeats)
       + length (heartbeatsOfType AgentType.OpenClaw agents heartbeats)
       + length (heartbeatsOfType AgentType.Admin agents heartbeats).
Proof.
  unfold cronRows, heartbeatsOfType. split; [| split].
  - induction heartbeats as [|hb rest IH]; [done |].
    cbn [omap list_omap List.filter].
    destruct (findAgent agents (Heartbeat.agent_id hb)) as [a|].
    + rewrite bool_decide_eq_true_2 by eauto. cbn [map cron_heartbeat]. by rewrite IH.
    + rewrite bool_decide_eq_false_2 by (by intros [? ?]). exact IH.
  - intros row Hrow. apply list_elem_of_In, list_elem_of_omap in Hrow as (hb & _ & Hrow).
    destruct (findAgent agents (Heartbeat.agent_id hb)) as [a|] eqn:Hfind;
      [| discriminate Hrow].
    injection Hrow as <-. cbn [cron_heartbeat cron_agent cron_isSelected].
    destruct (findAgent_Some _ _ _ Hfind) as [Hin Hid].
    repeat (split; [done |]).
    destruct selectedAgentId as [sel|]; [| by split].
    rewrite String.eqb_eq, Hid. split; [by intros -> | by intros [= ->]].
  - induction heartbeats as [|hb rest IH]; [done |].
    cbn [omap list_omap List.filter].
    destruct (findAgent agents (Heartbeat.agent_id hb)) as [a|]; [| exact IH].
    cbn [length]. rewrite IH.
    destruct (Agent.type a); repeat case_bool_decide; try done; cbn [length]; lia.
Qed.

Lemma perfByAgent_lookup perfMetrics k :
  perfByAgent perfMetrics !! k
  = List.find (fun m => String.eqb (PerformanceMetric.agent_id m) k) (rev perfMetrics).
Proof.
  change (perfByAgent perfMetrics) with (perfFrom ∅ perfMetrics).
  rewrite perfFrom_lookup. destruct (List.find _ _); [done | apply lookup_empty].
Qed.

(** X11: the table of the performance tab has a row for each agent that has
    at least one performance row, in the order of the agents, and for no
    other: a performance row of an unknown agent is not shown.  The
    performance row shown for an agent is the last one of the collection that
    carries its identifier, and the row is highlighted exactly when the agent
    is the selected one. *)
Theorem perfRows_indexed (agents : list Agent.t)
    (perfMetrics : list PerformanceMetric.t) (selectedAgentId : option string) :
  map (fun row => fst (fst row)) (perfRows agents perfMetrics selectedAgentId)
  = List.filter
      (fun a => bool_decide (Agent.id a ∈ map PerformanceMetric.agent_id perfMetrics))
      agents
  /\ forall a p b, In (a, p, b) (perfRows agents perfMetrics selectedAgentId) ->
       In a agents /\ In p perfMetrics
       /\ PerformanceMetric.agent_id p = Agent.id a
       /\ List.find (fun m => String.eqb (PerformanceMetric.agent_id m) (Agent.id a))
                    (rev perfMetrics) = Some p
       /\ (b = true <-> selectedAgentId = Some (Agent.id a)).
Proof.
  unfold perfRows. split.
  - induction agents as [|a agents IH]; [done |].
    cbn [omap list_omap List.filter]. rewrite perfByAgent_lookup.
    destruct (List.find _ (rev perfMetrics)) as [p|] eqn:Hf.
    + apply find_some in Hf as [Hin Hid]. apply String.eqb_eq in Hid.
      rewrite bool_decide_eq_true_2; [cbn [map fst]; by rewrite IH |].
      apply list_elem_of_In, in_map_iff. exists p. split; [done | by apply in_rev].
    + rewrite bool_decide_eq_false_2; [exact IH |].
      intros Hin. apply list_elem_of_In, in_map_iff in Hin as (p & Hid & Hin).
      apply in_rev in Hin. pose proof (find_none _ _ Hf p Hin) as Hn.
      simpl in Hn. by apply String.eqb_neq in Hn.
  - intros a p b Hrow.
    apply list_elem_of_In, list_elem_of_omap in Hrow as (a' & Hin & Hrow).
    rewrite perfByAgent_lookup in Hrow.
    destruct (List.find _ (rev perfMetrics)) as [p'|] eqn:Hf; [| discriminate Hrow].
    injection Hrow as -> -> <-.
    pose proof Hf as Hf'. apply find_some in Hf' as [Hinp Hid]. apply String.eqb_eq in Hid.
    split; [by apply list_elem_of_In |]. split; [by apply in_rev |].
    split; [done |]. split; [done |].
    destruct selectedAgentId as [sel|]; [| by split].
    rewrite String.eqb_eq. split; [by intros -> | by intros [= ->]].
Qed.

(** X12: when the selected identifier is carried by no agent of the state,
    nothing is highlighted: no card of the agent list, no row of the crons
    table, no row of the performance table; and the detail pane is the
    placeholder. *)
Theorem dangling_selection_highlights_nothing (st : State) (sel : string) :
  selectedAgentId st = Some sel ->
  (forall a, In a (agents st) -> Agent.id a <> sel) ->
  (forall cols, columns (render st) = Some cols ->
     Forall (fun card => snd card = false) (agent_list cols)
     /\ detail cols = detail_empty)
  /\ Forall (fun row => cron_isSelected row = false)
            (cronRows (heartbeats st) (agents st) (selectedAgentId st))
  /\ Forall (fun row => snd row = false)
            (perfRows (agents st) (perfMetrics st) (selectedAgentId st)).
Proof.
  intros Hsel Habsent. rewrite Hsel.
  assert (Hflag : forall a, In a (agents st) -> String.eqb (Agent.id a) sel = false).
  { intros a Hin. apply String.eqb_neq. by apply Habsent. }
  split; [| split].
  - intros cols Hcols. unfold render in Hcols. cbn [columns] in Hcols.
    destruct (negb (loading st) && negb (truthy (error st))); [| discriminate Hcols].
    injection Hcols as <-. cbn [agent_list detail]. rewrite Hsel. split.
    + apply Forall_forall. intros card Hcard.
      apply list_elem_of_In, in_map_iff in Hcard as (a & <- & Hin). by apply Hflag.
    + unfold detailPane, selectedAgent.
      destruct (List.find _ (agents st)) as [a|] eqn:Hf; [| done].
      apply find_some in Hf as [Hin Hid]. by rewrite (Hflag a Hin) in Hid.
  - apply Forall_forall. intros row Hrow. unfold cronRows in Hrow.
    apply list_elem_of_omap in Hrow as (hb & _ & Hrow).
    destruct (findAgent (agents st) (Heartbeat.agent_id hb)) as [a|] eqn:Hfind;
      [| discriminate Hrow].
    injection Hrow as <-. cbn [cron_isSelected].
    apply Hflag. by apply findAgent_Some in Hfind as [? _].
  - apply Forall_forall. intros row Hrow. unfold perfRows in Hrow.
    apply list_elem_of_omap in Hrow as (a & Hin & Hrow).
    destruct (perfByAgent (perfMetrics st) !! Agent.id a); [| discriminate Hrow].
    injection Hrow as <-. cbn [snd]. apply Hflag. by apply list_elem_of_In.
Qed.

Lemma dangling_selection_highlights_nothing_witness :
  selectedAgentId (setSelectedAgentId (Some "zz") displayed) = Some "zz"
  /\ (forall a, In a (agents (setSelectedAgentId (Some "zz") displayed)) -> Agent.id a <> "zz")
  /\ Forall (fun row => cron_isSelected row = false)
       (cronRows (heartbeats (setSelectedAgentId (Some "zz") displayed))
          (agents (setSelectedAgentId (Some "zz") displayed))
          (selectedAgentId (setSelectedAgentId (Some "zz") displayed))).
Proof.
  assert (H : forall a, In a (agents (setSelectedAgentId (Some "zz") displayed)) ->
                Agent.id a <> "zz").
  { intros a [<- | [<- | []]]; discriminate. }
  split; [reflexivity |]. split; [exact H |].
  exact (proj1 (proj2 (dangling_selection_highlights_nothing
                         (setSelectedAgentId (Some "zz") displayed) "zz" eq_refl H))).
Defined.

(** ** The view and the cycle *)

(** X13: the main area shows exactly one of three things: the loading notice
    while [loading] is set; otherwise the banner with the stored message when
    that message is not empty; otherwise the alert strip and the columns. *)
Theorem render_one_of_three (st : State) :
  (loading st = true
   /\ loading_banner (render st) = true /\ error_banner (render st) = None
   /\ columns (render st) = None /\ alert_strip (render st) = None)
  \/ (loading st = false
      /\ (exists msg, error st = Some msg /\ msg <> ""
                      /\ error_banner (render st) = Some msg)
      /\ loading_banner (render st) = false
      /\ columns (render st) = None /\ alert_strip (render st) = None)
  \/ (loading st = false /\ (error st = None \/ error st = Some "")
      /\ loading_banner (render st) = false /\ error_banner (render st) = None
      /\ is_Some (columns (render st)) /\ is_Some (alert_strip (render st))).
Proof.
  unfold render. cbn [loading_banner error_banner columns alert_strip].
  destruct (loading st); [left; by rewrite !andb_false_r |]. right.
  destruct (error st) as [msg|]; cbn [truthy negb andb].
  - destruct (String.eqb_spec msg "") as [-> | Hne]; cbn [negb andb].
    + right. repeat (split; [by eauto |]). by eauto.
    + left. split; [done |]. split; [by exists msg |]. done.
  - right. repeat (split; [by eauto |]). by eauto.
Qed.

(** X14: a cycle is all or nothing.  Either its four responses are read and
    the four collections are replaced together, the error cleared and the
    time of the update stamped; or something is thrown and the collections,
    the selection and the time of the last update are left as they were and
    a message is stored.  In both cases [loading] is reset, and the active
    tab, the alerts panel and the refresh interval are not touched. *)
Theorem cycle_all_or_nothing (captured : option string) (now : Date.t)
    (c : Cycle) (st : State) :
  ((exists d, fetched c = normal d
              /\ snapshot (fetchAll_settled captured now c st) = d
              /\ error (fetchAll_settled captured now c st) = None
              /\ lastUpdated (fetchAll_settled captured now c st) = Some now)
   \/ (exists err, fetched c = throw err
                   /\ snapshot (fetchAll_settled captured now c st) = snapshot st
                   /\ error (fetchAll_settled captured now c st) = Some (errorMessage err)
                   /\ lastUpdated (fetchAll_settled captured now c st) = lastUpdated st
                   /\ selectedAgentId (fetchAll_settled captured now c st)
                      = selectedAgentId st))
  /\ loading (fetchAll_settled captured now c st) = false
  /\ activeTab (fetchAll_settled captured now c st) = activeTab st
  /\ showAlertsPanel (fetchAll_settled captured now c st) = showAlertsPanel st
  /\ refreshSeconds (fetchAll_settled captured now c st) = refreshSeconds st.
Proof.
  destruct (fetched c) as [d | err] eqn:Hc.
  - rewrite (fetchAll_settled_normal captured now c d st Hc).
    destruct (applyPayload_flags captured now d st) as [Herr Hnow].
    split.
    + left. exists d. split; [done |]. split; [apply applyPayload_snapshot |]. by split.
    + unfold applyPayload. by destruct (negb (truthy captured) && _).
  - rewrite (fetchAll_settled_throw captured now c st err Hc).
    split; [right; by exists err | done].
Qed.

(** X15: the responses of a cycle are read exactly when all four promises are
    fulfilled, all four statuses are successes and all four bodies parse; the
    payload is then made of the four parsed bodies. *)
Theorem fetched_normal_iff (c : Cycle) (d : Payload) :
  fetched c = normal d
  <-> exists a h p l,
        fetch_agents c = fulfilled a /\ fetch_heartbeats c = fulfilled h
        /\ fetch_performance c = fulfilled p /\ fetch_alerts c = fulfilled l
        /\ ok a = true /\ ok h = true /\ ok p = true /\ ok l = true
        /\ json a = normal (agentsData d) /\ json h = normal (hbData d)
        /\ json p = normal (perfData d) /\ json l = normal (alertsData d).
Proof.
  split.
  - intros Hc. unfold fetched in Hc.
    destruct (rejections c) as [|r rest] eqn:Hrej.
    + destruct (rejections_nil c Hrej) as (a & h & p & l & Ea & Eh & Ep & El).
      rewrite (Promise_all_fulfilled c a h p l Ea Eh Ep El) in Hc.
      cbn [bind agentsRes hbRes perfRes alertsRes] in Hc. unfold check_ok in Hc.
      exists a, h, p, l. repeat (split; [done |]).
      destruct (ok a); cbn [negb bind] in Hc; [| discriminate Hc].
      destruct (ok h); cbn [negb bind] in Hc; [| discriminate Hc].
      destruct (ok p); cbn [negb bind] in Hc; [| discriminate Hc].
      destruct (ok l); cbn [negb bind] in Hc; [| discriminate Hc].
      destruct (json a) as [da|]; cbn [bind] in Hc; [| discriminate Hc].
      destruct (json h) as [dh|]; cbn [bind] in Hc; [| discriminate Hc].
      destruct (json p) as [dp|]; cbn [bind] in Hc; [| discriminate Hc].
      destruct (json l) as [dl|]; cbn [bind] in Hc; [| discriminate Hc].
      by injection Hc as <-.
    + rewrite (Promise_all_rejected c r rest Hrej) in Hc. discriminate Hc.
  - intros (a & h & p & l & Ea & Eh & Ep & El & Oa & Oh & Op & Ol & Ja & Jh & Jp & Jl).
    unfold fetched. rewrite (Promise_all_fulfilled c a h p l Ea Eh Ep El).
    cbn [bind agentsRes hbRes perfRes alertsRes]. unfold check_ok.
    rewrite Oa, Oh, Op, Ol, Ja, Jh, Jp, Jl. cbn [negb bind]. by destruct d.
Qed.



(** ** The component over time *)

Lemma commit_ui m st inflight' :
  ui (commit m st inflight') = st \/ ui (commit m st inflight') = setLoading true st.
Proof. unfold commit. case_bool_decide; [by left | by right]. Qed.

(** What a step does to the four collections: nothing, unless it is the
    settlement of a waiting run whose responses are read. *)
Lemma step_snapshot m e :
  snapshot (ui (step m e)) = snapshot (ui m)
  \/ exists r now c d,
       e = settle r now c /\ fetched c = normal d /\ snapshot (ui (step m e)) = d.
Proof.
  destruct e as [|r now c|id|value|tab|]; cbn [step];
    try (left;
         match goal with
         | |- context [commit m ?st ?i] =>
             by destruct (commit_ui_snapshot m st i) as [-> _]
         end).
  - by left.
  - destruct (inflight m !! r) as [captured|]; [| by left].
    destruct (commit_ui_snapshot m (fetchAll_settled captured now c (ui m))
                (delete r (inflight m))) as [-> _].
    destruct (fetched c) as [d | err] eqn:Hc.
    + right. exists r, now, c, d. split; [done |]. split; [done |].
      rewrite (fetchAll_settled_normal captured now c d (ui m) Hc).
      apply applyPayload_snapshot.
    + left. by rewrite (fetchAll_settled_throw captured now c (ui m) err Hc).
Qed.

(** X17: the snapshot is never a mix of two answers.  After any sequence of
    events, the four collections are the four empty ones of the first render
    or, together, the four arrays of one successful answer among the
    events. *)
Theorem snapshot_never_torn (events : list Event) :
  snapshot (ui (run mounted events)) = snapshot initialState
  \/ exists r now c d,
       In (settle r now c) events /\ fetched c = normal d
       /\ snapshot (ui (run mounted events)) = d.
Proof.
  induction events as [|e events IH] using rev_ind; [by left |].
  unfold run in *. rewrite fold_left_app. cbn [fold_left].
  destruct (step_snapshot (fold_left step events mounted) e)
    as [Hsame | (r & now & c & d & -> & Hc & Hd)].
  - rewrite Hsame. destruct IH as [IH | (r & now & c & d & Hin & Hc & Hd)]; [by left |].
    right. exists r, now, c, d. split; [apply in_or_app; by left | by split].
  - right. exists r, now, c, d. split; [apply in_or_app; right; by left | by split].
Qed.

(** X18: no event other than the settlement of a run changes the four
    collections, the stored error or the time of the last update. *)
Theorem only_settlements_change_data (m : Machine) (e : Event) :
  is_settle e = false ->
  snapshot (ui (step m e)) = snapshot (ui m)
  /\ error (ui (step m e)) = error (ui m)
  /\ lastUpdated (ui (step m e)) = lastUpdated (ui m).
Proof.
  intros He.
  destruct e as [|r now c|id|value|tab|]; cbn [step]; [done | discriminate He | | | |];
    match goal with
    | |- context [commit m ?st ?i] => destruct (commit_ui m st i) as [-> | ->]
    end; done.
Qed.

Lemma only_settlements_change_data_witness :
  is_settle (clickAgent "b2") = false
  /\ snapshot (ui (step overlapped (clickAgent "b2"))) = snapshot (ui overlapped).
Proof.
  split; [reflexivity |].
  exact (proj1 (only_settlements_change_data overlapped (clickAgent "b2") eq_refl)).
Defined.

(** X19: a click on the agent that is already selected changes nothing and
    starts nothing; a click on another agent selects it and, the effect being
    re-created, starts a run that has read the new selection and hides the
    columns behind the loading notice. *)
Theorem clickAgent_restarts (m : Machine) (id : string) :
  (selectedAgentId (ui m) = Some id -> step m (clickAgent id) = m)
  /\ (selectedAgentId (ui m) <> Some id ->
      selectedAgentId (ui (step m (clickAgent id))) = Some id
      /\ started (step m (clickAgent id)) = S (started m)
      /\ inflight (step m (clickAgent id)) !! started m = Some (Some id)
      /\ loading (ui (step m (clickAgent id))) = true
      /\ columns (render (ui (step m (clickAgent id)))) = None).
Proof.
  cbn [step]. unfold commit. split.
  - intros Hsel. rewrite bool_decide_eq_true_2 by (cbn; by rewrite Hsel).
    destruct m as [st infl n]. destruct st. cbn in Hsel. by subst.
  - intros Hsel. rewrite bool_decide_eq_false_2 by (cbn; intros [? _]; congruence).
    unfold startCycle.
    cbn [ui started inflight selectedAgentId loading setLoading setSelectedAgentId].
    split; [done |]. split; [done |]. split; [apply lookup_insert_eq |]. by split.
Qed.

Lemma fetchAll_settled_refreshSeconds captured now c st :
  refreshSeconds (fetchAll_settled captured now c st) = refreshSeconds st.
Proof.
  unfold fetchAll_settled. destruct (fetched c); [| done].
  unfold applyPayload. by destruct (negb (truthy captured) && _).
Qed.

Lemma commit_refreshSeconds m st inflight' :
  refreshSeconds (ui (commit m st inflight')) = refreshSeconds st.
Proof. by destruct (commit_ui m st inflight') as [-> | ->]. Qed.

(** X20: the refresh interval is never zero: it is 15 at the first render,
    and a change to zero is replaced by 15. *)
Theorem refreshSeconds_never_zero (events : list Event) :
  refreshSeconds (ui (run mounted events)) <> 0%Z.
Proof.
  induction events as [|e events IH] using rev_ind; [done |].
  unfold run in *. rewrite fold_left_app. cbn [fold_left].
  set (m := fold_left step events mounted) in *.
  destruct e as [|r now c|id|value|tab|]; cbn [step];
    rewrite ?commit_refreshSeconds; try exact IH.
  - destruct (inflight m !! r) as [captured|]; [| exact IH].
    by rewrite commit_refreshSeconds, fetchAll_settled_refreshSeconds.
  - cbn [refreshSeconds setRefreshSeconds].
    destruct (Z.eqb_spec value 0) as [-> | Hne]; [done | exact Hne].
Qed.

(** The loading notice is backed by a waiting run. *)
Lemma step_loading_backed m e :
  (loading (ui m) = true -> exists r, is_Some (inflight m !! r)) ->
  loading (ui (step m e)) = true -> exists r, is_Some (inflight (step m e) !! r).
Proof.
  intros Hm.
  assert (Hstart : forall m0, exists r, is_Some (inflight (startCycle m0) !! r)).
  { intros m0. exists (started m0). rewrite startCycle_captures. by eexists. }
  assert (Hcommit : forall st infl,
            (loading st = true -> exists r, is_Some (infl !! r)) ->
            loading (ui (commit m st infl)) = true ->
            exists r, is_Some (inflight (commit m st infl) !! r)).
  { intros st infl Hst. unfold commit. case_bool_decide; [exact Hst |].
    intros _. apply Hstart. }
  destruct e as [|r now c|id|value|tab|]; cbn [step];
    try (apply Hcommit; exact Hm).
  - intros _. apply Hstart.
  - destruct (inflight m !! r) as [captured|]; [| exact Hm].
    apply Hcommit. intros Hl. exfalso. unfold fetchAll_settled in Hl. discriminate Hl.
Qed.

(** X21: whenever the loading notice is shown, some run of [fetchAll] is
    waiting for its answer. *)
Theorem loading_is_backed (events : list Event) :
  loading (ui (run mounted events)) = true ->
  exists r, is_Some (inflight (run mounted events) !! r).
Proof.
  induction events as [|e events IH] using rev_ind.
  - intros _. exists 0. by eexists.
  - unfold run in *. rewrite fold_left_app. cbn [fold_left].
    by apply step_loading_backed.
Qed.

Lemma loading_is_backed_witness :
  loading (ui (run mounted [tick])) = true
  /\ exists r, is_Some (inflight (run mounted [tick]) !! r).
Proof.
  split; [reflexivity |]. exact (loading_is_backed [tick] eq_refl).
Defined.

(** X22: a click on a row of the alerts panel whose alert names, by a
    non-empty identifier, an agent that the state carries is the click on the
    card of that agent: the identifier is selected and resolves to the first
    agent that carries it.  A click on a row whose alert has no related
    identifier, an empty one, or one that no agent of the state carries,
    does nothing. *)
Theorem clickAlertRow_selects (m : Machine) (a : Alert.t) :
  (forall id agent,
     Alert.related_agent_id a = Some id -> id <> "" ->
     In agent (agents (ui m)) -> Agent.id agent = id ->
     clickAlertRow m a = step m (clickAgent id)
     /\ selectedAgentId (ui (clickAlertRow m a)) = Some id
     /\ exists a',
          selectedAgent (agents (ui (clickAlertRow m a)))
            (selectedAgentId (ui (clickAlertRow m a))) = Some a'
          /\ resolves (agents (ui m)) id a')
  /\ ((Alert.related_agent_id a = None \/ Alert.related_agent_id a = Some ""
       \/ exists id, Alert.related_agent_id a = Some id
                     /\ forall agent, In agent (agents (ui m)) -> Agent.id agent <> id) ->
      clickAlertRow m a = m).
Proof.
  unfold clickAlertRow. split.
  - intros id agent Hrel Hne Hin Hid. unfold alertAgent. rewrite Hrel. cbn [truthy].
    apply String.eqb_neq in Hne. rewrite Hne. cbn [negb].
    destruct (findAgent (agents (ui m)) id) as [a'|] eqn:Hfind.
    + pose proof (proj1 (findAgent_resolves _ _ _) Hfind) as Hres.
      destruct (findAgent_Some _ _ _ Hfind) as [_ Hid'].
      rewrite Hid'. split; [done |]. cbn [step].
      destruct (commit_ui_snapshot m (setSelectedAgentId (Some id) (ui m)) (inflight m))
        as (Hsnap & _ & Hsel).
      apply (f_equal agentsData) in Hsnap.
      cbn [snapshot agentsData agents setSelectedAgentId] in Hsnap.
      rewrite Hsel, Hsnap. split; [done |]. exists a'. split; [exact Hfind | exact Hres].
    + exfalso. by apply (proj1 (findAgent_None (agents (ui m)) id) Hfind agent Hin).
  - intros Hno. unfold alertAgent.
    destruct Hno as [-> | [-> | (id & -> & Habsent)]]; [done | done |].
    cbn [truthy]. destruct (negb (id =? "")); [| done].
    destruct (findAgent (agents (ui m)) id) as [agent|] eqn:Hfind; [| done].
    destruct (findAgent_Some _ _ _ Hfind) as [Hin Hid]. by destruct (Habsent agent Hin).
Qed.

Lemma startCycle_latest m :
  forall captured,
    inflight (startCycle m) !! (started (startCycle m) - 1) = Some captured ->
    captured = selectedAgentId (ui (startCycle m)).
Proof.
  intros captured. unfold startCycle. cbn [inflight started ui selectedAgentId setLoading].
  replace (S (started m) - 1) with (started m) by lia.
  rewrite lookup_insert_eq. by intros [= <-].
Qed.

Lemma commit_latest m st inflight' :
  (forall captured, inflight m !! (started m - 1) = Some captured ->
     captured = selectedAgentId (ui m)) ->
  (forall k captured, inflight' !! k = Some captured -> inflight m !! k = Some captured) ->
  forall captured,
    inflight (commit m st inflight') !! (started (commit m st inflight') - 1) = Some captured ->
    captured = selectedAgentId (ui (commit m st inflight')).
Proof.
  intros Hm Hsub. unfold commit. case_bool_decide as Hdeps.
  - cbn [inflight started ui]. intros captured Hc. destruct Hdeps as [-> _].
    apply Hm. by apply Hsub.
  - apply startCycle_latest.
Qed.

(** X23: in every state that the component reaches, the run of [fetchAll]
    started last, while it waits, has read the selection that is current:
    only an answer to a run started earlier can act on a selection other
    than the one on screen. *)
Theorem latest_run_read_current (events : list Event) (captured : option string) :
  inflight (run mounted events) !! (started (run mounted events) - 1) = Some captured ->
  captured = selectedAgentId (ui (run mounted events)).
Proof.
  revert captured. induction events as [|e events IH] using rev_ind.
  - intros captured. apply (startCycle_latest {| ui := initialState; inflight := ∅; started := 0 |}).
  - unfold run in *. rewrite fold_left_app. cbn [fold_left].
    set (m := fold_left step events mounted) in *.
    destruct e as [|r now c|id|value|tab|]; cbn [step];
      try (apply commit_latest; [exact IH | by intros k captured Hk]).
    + apply startCycle_latest.
    + destruct (inflight m !! r) as [cap|] eqn:Hr; [| exact IH].
      apply commit_latest; [exact IH |].
      intros k captured Hk. destruct (decide (r = k)) as [<- | Hne].
      * by rewrite lookup_delete_eq in Hk.
      * by rewrite lookup_delete_ne in Hk.
Qed.

Lemma latest_run_read_current_witness :
  inflight (run mounted lateTrace) !! (started (run mounted lateTrace) - 1 - 3) = Some None
  /\ inflight (run mounted (lateTrace ++ [tick]))
       !! (started (run mounted (lateTrace ++ [tick])) - 1) = Some (Some "b2")
  /\ Some "b2" = selectedAgentId (ui (run mounted (lateTrace ++ [tick]))).
Proof.
  split; [reflexivity |]. split; [reflexivity |].
  exact (latest_run_read_current (lateTrace ++ [tick]) (Some "b2") eq_refl).
Defined.
